(** * logparser: a multi-field sorted-index log container and its streaming parser

    Shallow embedding of [logparser/logparser.py] (Python 2):
    - [LogContainer]: [append], [find_by], [entries], [_marshall_value];
    - [CustomLog]: the header regular expression [_entry_re], the three
      converters, [LogEntry.__str__] and the streaming [load];
    - the class attribute [LogContainer._converters], one dictionary
      shared by every instance, as a field of the interpreter state.

    Library code the source calls ([bisect], tuple comparison, [re],
    [datetime.strptime]/[strftime], [str.rstrip]) is modelled from the
    behaviour of CPython 2.7 on the inputs the source hands to it. *)

From Stdlib Require Import ZArith Ascii String Lia.
From stdpp Require Import base list strings gmap sorting.

#[local] Open Scope string_scope.
#[local] Open Scope list_scope.
#[local] Open Scope nat_scope.

(** ** Exceptions and results *)

(** The exceptions the modelled code can raise. The three [raise ValueError]
    statements of [logparser.py] are kept apart by their message. *)
Inductive exn : Type :=
  | ValueError_missing_field (field : string)
      (* "Entry %s doesn't have field '%s'", LogContainer.append *)
  | ValueError_unknown_field (field : string)
      (* "Field %s doesn't exist or doesn't support search", find_by *)
  | ValueError_unknown_loglevel
      (* "Unknown loglevel", CustomLog._loglevel_converter *)
  | ValueError_strptime         (* datetime.strptime on a bad date *)
  | ValueError_strftime         (* datetime.strftime, year before 1900 *)
  | TypeError
  | AttributeError
  | KeyError
  | IndexError.

(** [isinstance(e, ValueError)] *)
Definition is_ValueError (e : exn) : bool :=
  match e with
  | ValueError_missing_field _ | ValueError_unknown_field _
  | ValueError_unknown_loglevel | ValueError_strptime
  | ValueError_strftime => true
  | _ => false
  end.

Inductive result (A : Type) : Type :=
  | Ok (a : A)
  | Raise (e : exn).
Arguments Ok {A} a.
Arguments Raise {A} e.

#[export] Instance result_ret : MRet result := fun A a => Ok a.
#[export] Instance result_bind : MBind result := fun A B k r =>
  match r with
  | Ok a => k a
  | Raise e => Raise e
  end.

(** ** The Python operations the container uses on sort keys

    [find_by] tests [value_to] for truth and both methods compare
    [(sort_key, position)] tuples with [<]. The container is generic in
    the values it stores; what it needs of them is collected here. The
    laws say that [<] is a strict total order, which the container
    presupposes of its sort keys. *)
Class PyValue (V : Type) : Type := {
  py_None : V;
  py_truth : V -> bool;
  py_eq : V -> V -> bool;
  py_lt : V -> V -> bool
}.

Class PyOrder (V : Type) `{PyValue V} : Prop := {
  py_truth_None : py_truth (py_None : V) = false;
  py_eq_spec : forall a b : V, py_eq a b = true <-> a = b;
  py_lt_irrefl : forall a : V, py_lt a a = false;
  py_lt_trans : forall a b c : V,
    py_lt a b = true -> py_lt b c = true -> py_lt a c = true;
  py_lt_total : forall a b : V,
    a <> b -> py_lt a b = true \/ py_lt b a = true
}.

(** Attribute access on a record: [getattr(entry, field)], [None] when
    Python raises [AttributeError]. *)
Class Attributes (E V : Type) : Type :=
  getattr : E -> string -> option V.

(** ** [bisect] *)

Section Bisect.
Context {T : Type} (lt : T -> T -> bool).

(** The [while lo < hi] loop of [bisect.bisect_right]; every iteration
    shrinks [hi - lo], so [hi - lo] iterations are enough. An index
    outside the list cannot be reached ([lo <= mid < hi <= len(a)]). *)
Fixpoint bisect_right_loop (fuel : nat) (a : list T) (x : T)
    (lo hi : nat) : nat :=
  match fuel with
  | 0 => lo
  | S fuel' =>
      if lo <? hi then
        let mid := (lo + hi) / 2 in
        match a !! mid with
        | Some y =>
            if lt x y then bisect_right_loop fuel' a x lo mid
            else bisect_right_loop fuel' a x (mid + 1) hi
        | None => lo
        end
      else lo
  end.

Definition bisect_right (a : list T) (x : T) (lo : nat) : nat :=
  bisect_right_loop (length a - lo) a x lo (length a).

Fixpoint bisect_left_loop (fuel : nat) (a : list T) (x : T)
    (lo hi : nat) : nat :=
  match fuel with
  | 0 => lo
  | S fuel' =>
      if lo <? hi then
        let mid := (lo + hi) / 2 in
        match a !! mid with
        | Some y =>
            if lt y x then bisect_left_loop fuel' a x (mid + 1) hi
            else bisect_left_loop fuel' a x lo mid
        | None => lo
        end
      else lo
  end.

Definition bisect_left (a : list T) (x : T) (lo : nat) : nat :=
  bisect_left_loop (length a - lo) a x lo (length a).

(** [a.insert(i, x)] for [0 <= i <= len(a)] *)
Definition list_insert_at (i : nat) (x : T) (a : list T) : list T :=
  take i a ++ x :: drop i a.

Definition insort_right (a : list T) (x : T) : list T :=
  list_insert_at (bisect_right a x 0) x a.

(** [a[lo:hi]] *)
Definition slice (a : list T) (lo hi : nat) : list T :=
  take (hi - lo) (drop lo a).
End Bisect.

(** Python's [<] on 2-tuples [(sort_key, position)]: the first components
    that differ decide. *)
Definition tuple_lt {V} `{PyValue V} (x y : V * nat) : bool :=
  if py_eq x.1 y.1 then x.2 <? y.2 else py_lt x.1 y.1.

(** ** [class LogContainer] *)

Section Container.
Context {V : Type} `{PyValue V} {E : Type} `{Attributes E V}.

(** The instance attributes set by [__init__]. The class attribute
    [_converters] is not among them: it lives in the class, and every
    method below reads it through its [convs] argument. *)
Record LogContainer : Type := {
  _entries : list E;
  _searchable_fields : list string;
  _buckets : gmap string (list (V * nat))
}.

(** [LogContainer.__init__(self, searchable_fields)]; a caller that
    omits the argument (or passes an empty list) gets [[]]. *)
Definition LogContainer_init (searchable_fields : list string)
    : LogContainer :=
  {| _entries := [];
     _searchable_fields := searchable_fields;
     _buckets :=
       list_to_map ((fun field => (field, [])) <$> searchable_fields) |}.

(** The property [entries]: a copy of the list. *)
Definition entries (self : LogContainer) : list E := _entries self.

Definition _marshall_value (convs : gmap string (V -> result V))
    (field_name : string) (value : V) : result V :=
  match convs !! field_name with
  | Some converter => converter value
  | None => Ok value
  end.

(** [self._marshall_value(field, getattr(entry, field))], the expression
    guarded by the [try] of [append]. *)
Definition sortable_value (convs : gmap string (V -> result V))
    (entry : E) (field : string) : result V :=
  match getattr entry field with
  | Some value => _marshall_value convs field value
  | None => Raise AttributeError
  end.

(** The [for field in self._searchable_fields] loop of [append]. The
    [try] covers both [getattr] and the converter call, so an
    [AttributeError] from either becomes the [ValueError] of line 104;
    any other exception leaves the loop as raised. The buckets updated
    by earlier iterations stay updated. *)
Fixpoint append_loop (convs : gmap string (V -> result V)) (entry : E)
    (last_index : nat) (fields : list string)
    (buckets : gmap string (list (V * nat)))
    : gmap string (list (V * nat)) * result unit :=
  match fields with
  | [] => (buckets, Ok tt)
  | field :: rest =>
      match sortable_value convs entry field with
      | Raise AttributeError =>
          (buckets, Raise (ValueError_missing_field field))
      | Raise e => (buckets, Raise e)
      | Ok sortable_value =>
          match buckets !! field with
          | Some bucket =>
              append_loop convs entry last_index rest
                (<[field :=
                    insort_right tuple_lt bucket
                      (sortable_value, last_index)]> buckets)
          | None => (buckets, Raise KeyError)
          end
      end
  end.

(** [append(self, entry)]: the new state of [self] and the outcome.
    The entry is stored before any field is looked at. *)
Definition append (convs : gmap string (V -> result V))
    (self : LogContainer) (entry : E) : LogContainer * result unit :=
  let entries' := _entries self ++ [entry] in
  let last_index := length entries' - 1 in
  let '(buckets', outcome) :=
    append_loop convs entry last_index (_searchable_fields self)
      (_buckets self) in
  ({| _entries := entries';
      _searchable_fields := _searchable_fields self;
      _buckets := buckets' |}, outcome).

(** [[self._entries[i] for _, i in pairs]] *)
Fixpoint referenced (ents : list E) (pairs : list (V * nat))
    : result (list E) :=
  match pairs with
  | [] => Ok []
  | (_, i) :: rest =>
      match ents !! i with
      | Some e => es ← referenced ents rest; Ok (e :: es)
      | None => Raise IndexError
      end
  end.

(** The part of the bucket [find_by] selects: [bucket[low:high]]. *)
Definition find_slice (self : LogContainer) (bucket : list (V * nat))
    (value value_to : V) : list (V * nat) :=
  let low := bisect_left tuple_lt bucket (value, 0) 0 in
  let high :=
    bisect_right tuple_lt bucket (value_to, length (_entries self)) low in
  slice bucket low high.

(** [find_by(self, field_name, value, value_to)]; a call without
    [value_to] passes [py_None]. It assigns to no attribute of [self]. *)
Definition find_by (convs : gmap string (V -> result V))
    (self : LogContainer) (field_name : string) (value value_to : V)
    : result (list E) :=
  value ← _marshall_value convs field_name value;
  value_to ← (if py_truth value_to
              then _marshall_value convs field_name value_to
              else Ok value);
  bucket ← match _buckets self !! field_name with
           | Some bucket => Ok bucket
           | None => Raise (ValueError_unknown_field field_name)
           end;
  referenced (_entries self) (find_slice self bucket value value_to).
End Container.

Arguments LogContainer V E : clear implicits.

(** ** Python values *)

(** [datetime.datetime], second resolution, no time zone. *)
Record datetime : Type := {
  year : Z; month : Z; day : Z; hour : Z; minute : Z; second : Z
}.

(** The values that occur as record fields, query arguments and sort
    keys. [total_seconds()] returns a float; for whole seconds between
    the years 1 and 9999 it is an exact integer, kept here as [VInt]. *)
Inductive pyval : Type :=
  | VNone
  | VInt (n : Z)
  | VStr (s : string)
  | VDate (d : datetime).

(** [bool(v)] *)
Definition pyval_truth (v : pyval) : bool :=
  match v with
  | VNone => false
  | VInt n => negb (n =? 0)%Z
  | VStr s => negb (String.eqb s EmptyString)
  | VDate _ => true
  end.

Definition lex (c1 c2 : comparison) : comparison :=
  match c1 with Eq => c2 | _ => c1 end.

Definition datetime_compare (a b : datetime) : comparison :=
  lex (year a ?= year b)%Z
  (lex (month a ?= month b)%Z
  (lex (day a ?= day b)%Z
  (lex (hour a ?= hour b)%Z
  (lex (minute a ?= minute b)%Z
       (second a ?= second b)%Z)))).

(** CPython 2 orders values of different types: [None] below everything,
    numbers below the rest, the rest by type name. *)
Definition type_rank (v : pyval) : nat :=
  match v with
  | VNone => 0
  | VInt _ => 1
  | VDate _ => 2
  | VStr _ => 3
  end.

(** [cmp(a, b)]. Strings compare byte by byte, integers numerically,
    datetimes chronologically. CPython refuses to order a datetime
    against a value of another type ([TypeError]); the rank is used there
    to keep the order total, so for an index that mixes datetimes with
    other values the model answers where CPython raises. A [CustomLog]
    indexes its dates by their converted seconds. *)
Definition pyval_compare (a b : pyval) : comparison :=
  match a, b with
  | VInt x, VInt y => (x ?= y)%Z
  | VStr s, VStr t => String.compare s t
  | VDate d, VDate e => datetime_compare d e
  | _, _ => Nat.compare (type_rank a) (type_rank b)
  end.

Definition pyval_eq (a b : pyval) : bool :=
  match pyval_compare a b with Eq => true | _ => false end.

Definition pyval_lt (a b : pyval) : bool :=
  match pyval_compare a b with Lt => true | _ => false end.

#[export] Instance pyval_PyValue : PyValue pyval := {
  py_None := VNone;
  py_truth := pyval_truth;
  py_eq := pyval_eq;
  py_lt := pyval_lt
}.

(** ** Strings *)

Definition newline : ascii := ascii_of_nat 10.

(** The closing and opening quote of a message,
    [CustomLog._message_boundary]. *)
Definition _message_boundary : ascii := ascii_of_nat 39.

Definition char_between (lo hi : nat) (c : ascii) : bool :=
  (lo <=? nat_of_ascii c) && (nat_of_ascii c <=? hi).

(** [\d], [\w] and [[0-9a-f]] on byte strings *)
Definition is_digit (c : ascii) : bool := char_between 48 57 c.

Definition is_word (c : ascii) : bool :=
  char_between 97 122 c || char_between 65 90 c || is_digit c
  || Ascii.eqb c (ascii_of_nat 95).

Definition is_hex (c : ascii) : bool := is_digit c || char_between 97 102 c.

(** [.] matches every character but the newline *)
Definition is_dot (c : ascii) : bool := negb (Ascii.eqb c newline).

(** [c.isspace()]: space, tab, newline, vertical tab, form feed, return *)
Definition is_space (c : ascii) : bool :=
  char_between 9 13 c || Ascii.eqb c (ascii_of_nat 32).

Definition str_empty (s : string) : bool :=
  match s with EmptyString => true | String _ _ => false end.

(** Every character of [s] satisfies [p]. *)
Fixpoint str_forall (p : ascii -> bool) (s : string) : bool :=
  match s with
  | EmptyString => true
  | String c rest => p c && str_forall p rest
  end.

(** [s.rstrip()] *)
Fixpoint rstrip (s : string) : string :=
  match s with
  | EmptyString => EmptyString
  | String c rest =>
      let rest' := rstrip rest in
      if is_space c && str_empty rest' then EmptyString
      else String c rest'
  end.

(** [s[-1]], [None] on the empty string *)
Fixpoint last_char (s : string) : option ascii :=
  match s with
  | EmptyString => None
  | String c EmptyString => Some c
  | String _ rest => last_char rest
  end.

Definition ends_with_boundary (s : string) : bool :=
  match last_char s with
  | Some c => Ascii.eqb c _message_boundary
  | None => false
  end.

(** [s[n:]] *)
Fixpoint str_drop (n : nat) (s : string) : string :=
  match n, s with
  | 0, _ => s
  | S _, EmptyString => EmptyString
  | S n', String _ rest => str_drop n' rest
  end.

(** [sep.join(parts)] *)
Fixpoint str_join (sep : string) (parts : list string) : string :=
  match parts with
  | [] => EmptyString
  | [p] => p
  | p :: rest => p +:+ sep +:+ str_join sep rest
  end.

(** The lines a [StringIO] yields when iterated: each ends with its
    newline, except possibly the last. *)
Fixpoint StringIO_lines_from (current : string) (text : string)
    : list string :=
  match text with
  | EmptyString => if str_empty current then [] else [current]
  | String c rest =>
      if Ascii.eqb c newline
      then (current +:+ String c EmptyString) :: StringIO_lines_from EmptyString rest
      else StringIO_lines_from (current +:+ String c EmptyString) rest
  end.

Definition StringIO_lines (text : string) : list string :=
  StringIO_lines_from EmptyString text.

(** ** Matching [_entry_re]

    Every quantified class of the pattern excludes the character that
    follows it (a digit run is followed by a space, and so on), so the
    greedy match is the only candidate and no backtracking is involved. *)

(** The longest prefix whose characters satisfy [p], and the rest. *)
Fixpoint span (p : ascii -> bool) (s : string) : string * string :=
  match s with
  | EmptyString => (EmptyString, EmptyString)
  | String c rest =>
      if p c then let '(a, b) := span p rest in (String c a, b)
      else (EmptyString, s)
  end.

(** [p+] *)
Definition many1 (p : ascii -> bool) (s : string) : option (string * string) :=
  let '(a, b) := span p s in
  if str_empty a then None else Some (a, b).

(** [p{n}] *)
Fixpoint exactly (n : nat) (p : ascii -> bool) (s : string)
    : option (string * string) :=
  match n with
  | 0 => Some (EmptyString, s)
  | S n' =>
      match s with
      | String c rest =>
          if p c then
            '(a, b) ← exactly n' p rest; Some (String c a, b)
          else None
      | EmptyString => None
      end
  end.

(** A literal piece of the pattern. *)
Fixpoint literal (lit : string) (s : string) : option string :=
  match lit, s with
  | EmptyString, _ => Some s
  | String a lit', String c rest =>
      if Ascii.eqb a c then literal lit' rest else None
  | String _ _, EmptyString => None
  end.

(** The named groups of a successful match. *)
Record match_groups : Type := {
  group_date : string;
  group_loglevel : string;
  group_sessionid : string;
  group_businessid : string;
  group_requestid : string;
  group_message : string
}.

(** [\d{4}-\d{2}-\d{2} \d{2}:\d{2}:\d{2}] *)
Definition match_date (s : string) : option (string * string) :=
  '(yyyy, s) ← exactly 4 is_digit s;
  s ← literal "-" s;
  '(mo, s) ← exactly 2 is_digit s;
  s ← literal "-" s;
  '(dd, s) ← exactly 2 is_digit s;
  s ← literal " " s;
  '(hh, s) ← exactly 2 is_digit s;
  s ← literal ":" s;
  '(mi, s) ← exactly 2 is_digit s;
  s ← literal ":" s;
  '(ss, s) ← exactly 2 is_digit s;
  Some (yyyy +:+ "-" +:+ mo +:+ "-" +:+ dd +:+ " "
          +:+ hh +:+ ":" +:+ mi +:+ ":" +:+ ss, s).

(** A tag and its body: [SID:\d+], [BID:\d+], [RID:[0-9a-f]+]. *)
Definition match_tagged (tag : string) (body : ascii -> bool) (s : string)
    : option (string * string) :=
  s ← literal tag s;
  '(b, s) ← many1 body s;
  Some (tag +:+ b, s).

(** [_entry_re.match(line)] *)
Definition _entry_re_match (line : string) : option match_groups :=
  '(date, s) ← match_date line;
  s ← literal " " s;
  '(loglevel, s) ← many1 is_word s;
  s ← literal " " s;
  '(sessionid, s) ← match_tagged "SID:" is_digit s;
  s ← literal " " s;
  '(businessid, s) ← match_tagged "BID:" is_digit s;
  s ← literal " " s;
  '(requestid, s) ← match_tagged "RID:" is_hex s;
  s ← literal " " s;
  s ← literal (String _message_boundary EmptyString) s;
  let '(rest, _) := span is_dot s in
  Some {| group_date := date;
          group_loglevel := loglevel;
          group_sessionid := sessionid;
          group_businessid := businessid;
          group_requestid := requestid;
          group_message := String _message_boundary rest |}.

(** ** [datetime] *)

Definition digit_value (c : ascii) : Z := Z.of_nat (nat_of_ascii c) - 48.

Definition digit_char (d : Z) : ascii := ascii_of_nat (Z.to_nat (d + 48)).

(** [int(s)] for a string of decimal digits *)
Fixpoint int_from (acc : Z) (s : string) : Z :=
  match s with
  | EmptyString => acc
  | String c rest => int_from (acc * 10 + digit_value c) rest
  end.

Definition int (s : string) : Z := int_from 0 s.

(** ["%0<width>d" % n] for [0 <= n < 10 ** width] *)
Fixpoint zero_padded (width : nat) (n : Z) : string :=
  match width with
  | 0 => EmptyString
  | S w => zero_padded w (n / 10) +:+ String (digit_char (n mod 10)) EmptyString
  end.

Definition is_leap (y : Z) : bool :=
  ((y mod 4 =? 0) && (negb (y mod 100 =? 0) || (y mod 400 =? 0)))%Z.

Definition days_in_month (y m : Z) : Z :=
  (if m =? 2 then (if is_leap y then 29 else 28)
   else if (m =? 4) || (m =? 6) || (m =? 9) || (m =? 11) then 30
   else 31)%Z.

(** The checks of the [datetime] constructor. *)
Definition valid_datetime (d : datetime) : bool :=
  ((1 <=? year d) && (year d <=? 9999)
   && (1 <=? month d) && (month d <=? 12)
   && (1 <=? day d) && (day d <=? days_in_month (year d) (month d))
   && (0 <=? hour d) && (hour d <=? 23)
   && (0 <=? minute d) && (minute d <=? 59)
   && (0 <=? second d) && (second d <=? 59))%Z.

(** [CustomLog.date_format] is ["%Y-%m-%d %H:%M:%S"]; the two functions
    below are [strptime] and [strftime] for that format. *)

(** [datetime.strptime(s, date_format)] on a string of the shape the
    [date] group captures (the only strings [load] passes): the string is
    split at its fixed columns, and a value the [datetime] constructor
    refuses, or that the directive does not accept, is a [ValueError]. *)
Definition strptime (s : string) : result datetime :=
  let fields :=
    '(yyyy, s) ← exactly 4 is_digit s;
    s ← literal "-" s;
    '(mo, s) ← exactly 2 is_digit s;
    s ← literal "-" s;
    '(dd, s) ← exactly 2 is_digit s;
    s ← literal " " s;
    '(hh, s) ← exactly 2 is_digit s;
    s ← literal ":" s;
    '(mi, s) ← exactly 2 is_digit s;
    s ← literal ":" s;
    '(ss, s) ← exactly 2 is_digit s;
    if str_empty s then
      Some {| year := int yyyy; month := int mo; day := int dd;
              hour := int hh; minute := int mi; second := int ss |}
    else None in
  match fields with
  | Some d => if valid_datetime d then Ok d else Raise ValueError_strptime
  | None => Raise ValueError_strptime
  end.

(** [d.strftime(date_format)]; Python 2 refuses years before 1900. *)
Definition strftime (d : datetime) : result string :=
  if (year d <? 1900)%Z then Raise ValueError_strftime
  else Ok (zero_padded 4 (year d) +:+ "-" +:+ zero_padded 2 (month d)
           +:+ "-" +:+ zero_padded 2 (day d) +:+ " "
           +:+ zero_padded 2 (hour d) +:+ ":" +:+ zero_padded 2 (minute d)
           +:+ ":" +:+ zero_padded 2 (second d)).

(** Days from 0001-01-01 (day 1), as [date.toordinal()]. *)
Definition days_before_year (y : Z) : Z :=
  ((y - 1) * 365 + (y - 1) / 4 - (y - 1) / 100 + (y - 1) / 400)%Z.

Fixpoint days_before_month_from (y : Z) (m : nat) : Z :=
  match m with
  | 0 => 0
  | S m' => (days_before_month_from y m' + days_in_month y (Z.of_nat m))%Z
  end.

Definition days_before_month (y m : Z) : Z :=
  days_before_month_from y (Z.to_nat (m - 1)).

Definition toordinal (d : datetime) : Z :=
  (days_before_year (year d) + days_before_month (year d) (month d)
   + day d)%Z.

Definition epoch : datetime :=
  {| year := 1970; month := 1; day := 1;
     hour := 0; minute := 0; second := 0 |}.

(** [(d - datetime(1970, 1, 1)).total_seconds()] *)
Definition total_seconds_since_epoch (d : datetime) : Z :=
  ((toordinal d - toordinal epoch) * 86400
   + hour d * 3600 + minute d * 60 + second d)%Z.

(** ** [class CustomLog] *)

(** [CustomLog.LogEntry], a named tuple of six fields. *)
Record LogEntry : Type := {
  date : datetime;
  loglevel : string;
  sessionid : string;
  businessid : string;
  requestid : string;
  message : string
}.

Definition LogEntry_getattr (e : LogEntry) (field : string) : option pyval :=
  if String.eqb field "date" then Some (VDate (date e))
  else if String.eqb field "loglevel" then Some (VStr (loglevel e))
  else if String.eqb field "sessionid" then Some (VStr (sessionid e))
  else if String.eqb field "businessid" then Some (VStr (businessid e))
  else if String.eqb field "requestid" then Some (VStr (requestid e))
  else if String.eqb field "message" then Some (VStr (message e))
  else None.

(** [LogEntry.__str__] *)
Definition LogEntry_str (e : LogEntry) : result string :=
  d ← strftime (date e);
  Ok (str_join " " [d; loglevel e; sessionid e; businessid e;
                    requestid e; message e]).

(** The objects a container can hold: a named tuple given by its
    attributes (such as the [Entry] of the tests), or a [LogEntry]. *)
Inductive pyobj : Type :=
  | NamedTuple (attrs : list (string * pyval))
  | LogEntryObj (e : LogEntry).

Fixpoint assoc (attrs : list (string * pyval)) (name : string)
    : option pyval :=
  match attrs with
  | [] => None
  | (k, v) :: rest => if String.eqb k name then Some v else assoc rest name
  end.

#[export] Instance pyobj_Attributes : Attributes pyobj pyval := fun o field =>
  match o with
  | NamedTuple attrs => assoc attrs field
  | LogEntryObj e => LogEntry_getattr e field
  end.

(** [str(o)] of a [LogEntry]; named tuples are not rendered here. *)
Definition pyobj_str (o : pyobj) : result string :=
  match o with
  | LogEntryObj e => LogEntry_str e
  | NamedTuple _ => Raise TypeError
  end.

Definition _loglevel_converter (loglevel : pyval) : result pyval :=
  if pyval_eq (VStr "ERROR") loglevel then Ok (VInt 2)
  else if pyval_eq (VStr "WARN") loglevel then Ok (VInt 4)
  else if pyval_eq (VStr "DEBUG") loglevel then Ok (VInt 8)
  else Raise ValueError_unknown_loglevel.

Definition _datetime_converter (date : pyval) : result pyval :=
  match date with
  | VDate d => Ok (VInt (total_seconds_since_epoch d))
  | _ => Raise TypeError
  end.

Definition _xid_converter (xid : pyval) : result pyval :=
  match xid with
  | VStr s => Ok (VStr (str_drop 4 s))
  | _ => Raise TypeError
  end.

Definition CustomLog_searchable_fields : list string :=
  ["date"; "loglevel"; "sessionid"; "businessid"].

(** The four assignments [self._converters[...] = ...] of
    [CustomLog.__init__]. [self._converters] is the dictionary of the
    class [LogContainer]: the assignments update it in place. *)
Definition CustomLog_install (convs : gmap string (pyval -> result pyval))
    : gmap string (pyval -> result pyval) :=
  <["businessid" := _xid_converter]>
    (<["sessionid" := _xid_converter]>
      (<["loglevel" := _loglevel_converter]>
        (<["date" := _datetime_converter]> convs))).

(** [CustomLog.__init__(self)]: the registry after the call and the new
    instance. *)
Definition CustomLog_init (convs : gmap string (pyval -> result pyval))
    : gmap string (pyval -> result pyval) * LogContainer pyval pyobj :=
  (CustomLog_install convs, LogContainer_init CustomLog_searchable_fields).

(** The body of [for line in data] in [load], with [entry_data] as
    [None] for the empty dictionary and [Some] for a record whose
    message is open. Returns the instance, the next [entry_data] and the
    outcome; an exception ends the loop. *)
Definition load_line (convs : gmap string (pyval -> result pyval))
    (self : LogContainer pyval pyobj) (entry_data : option LogEntry)
    (line : string)
    : LogContainer pyval pyobj * result (option LogEntry) :=
  match _entry_re_match line with
  | Some groups =>
      match strptime (group_date groups) with
      | Raise e => (self, Raise e)
      | Ok d =>
          let entry_data :=
            {| date := d;
               loglevel := group_loglevel groups;
               sessionid := group_sessionid groups;
               businessid := group_businessid groups;
               requestid := group_requestid groups;
               message := group_message groups |} in
          if ends_with_boundary (message entry_data) then
            let '(self', outcome) :=
              append convs self (LogEntryObj entry_data) in
            (self', _ ← outcome; Ok None)
          else
            (self,
             Ok (Some {| date := date entry_data;
                         loglevel := loglevel entry_data;
                         sessionid := sessionid entry_data;
                         businessid := businessid entry_data;
                         requestid := requestid entry_data;
                         message := message entry_data
                                      +:+ String newline EmptyString |}))
      end
  | None =>
      match entry_data with
      | Some entry_data =>
          let stripped := rstrip line in
          if str_empty stripped || negb (ends_with_boundary stripped) then
            (self,
             Ok (Some {| date := date entry_data;
                         loglevel := loglevel entry_data;
                         sessionid := sessionid entry_data;
                         businessid := businessid entry_data;
                         requestid := requestid entry_data;
                         message := message entry_data +:+ line |}))
          else
            let '(self', outcome) :=
              append convs self
                (LogEntryObj
                   {| date := date entry_data;
                      loglevel := loglevel entry_data;
                      sessionid := sessionid entry_data;
                      businessid := businessid entry_data;
                      requestid := requestid entry_data;
                      message := message entry_data +:+ stripped |}) in
            (self', _ ← outcome; Ok None)
      | None => (self, Ok None)
      end
  end.

Fixpoint load_from (convs : gmap string (pyval -> result pyval))
    (self : LogContainer pyval pyobj) (entry_data : option LogEntry)
    (data : list string) : LogContainer pyval pyobj * result unit :=
  match data with
  | [] => (self, Ok tt)
  | line :: rest =>
      match load_line convs self entry_data line with
      | (self', Ok entry_data') => load_from convs self' entry_data' rest
      | (self', Raise e) => (self', Raise e)
      end
  end.

(** [CustomLog.load(self, data)]; [entry_data] starts as [{}]. *)
Definition load (convs : gmap string (pyval -> result pyval))
    (self : LogContainer pyval pyobj) (data : list string)
    : LogContainer pyval pyobj * result unit :=
  load_from convs self None data.

(** ** The interpreter state: one registry, many instances

    [_converters = { }] in the body of [class LogContainer] creates one
    dictionary, owned by the class. No [__init__] rebinds the name on the
    instance, so [self._converters] is that dictionary for every instance
    of [LogContainer] and of [CustomLog]. Instances are referred to by
    their position in [instances]. *)
Record interpreter : Type := {
  LogContainer_converters : gmap string (pyval -> result pyval);
  instances : list (LogContainer pyval pyobj)
}.

(** The state after the module is imported. *)
Definition fresh_interpreter : interpreter :=
  {| LogContainer_converters := ∅; instances := [] |}.

(** [LogContainer(searchable_fields)] *)
Definition new_LogContainer (searchable_fields : list string)
    (st : interpreter) : interpreter * nat :=
  ({| LogContainer_converters := LogContainer_converters st;
      instances := instances st ++ [LogContainer_init searchable_fields] |},
   length (instances st)).

(** [CustomLog()] *)
Definition new_CustomLog (st : interpreter) : interpreter * nat :=
  let '(convs, self) := CustomLog_init (LogContainer_converters st) in
  ({| LogContainer_converters := convs;
      instances := instances st ++ [self] |},
   length (instances st)).

(** [ref.append(entry)] *)
Definition call_append (ref : nat) (entry : pyobj) (st : interpreter)
    : interpreter * result unit :=
  match instances st !! ref with
  | Some self =>
      let '(self', outcome) :=
        append (LogContainer_converters st) self entry in
      ({| LogContainer_converters := LogContainer_converters st;
          instances := <[ref := self']> (instances st) |}, outcome)
  | None => (st, Raise AttributeError)
  end.

(** [ref.load(StringIO(text))] *)
Definition call_load (ref : nat) (text : string) (st : interpreter)
    : interpreter * result unit :=
  match instances st !! ref with
  | Some self =>
      let '(self', outcome) :=
        load (LogContainer_converters st) self (StringIO_lines text) in
      ({| LogContainer_converters := LogContainer_converters st;
          instances := <[ref := self']> (instances st) |}, outcome)
  | None => (st, Raise AttributeError)
  end.

(** [ref.find_by(field_name, value, value_to)] *)
Definition call_find_by (ref : nat) (field_name : string)
    (value value_to : pyval) (st : interpreter) : result (list pyobj) :=
  match instances st !! ref with
  | Some self =>
      find_by (LogContainer_converters st) self field_name value value_to
  | None => Raise AttributeError
  end.

(** ** Vocabulary of the statements *)

Section Vocabulary.
Context {V : Type} `{PyValue V} {E : Type} `{Attributes E V}.

(** [a <= b] on sort keys *)
Definition py_le (a b : V) : Prop := py_lt b a = false.

#[export] Instance py_le_dec (a b : V) : Decision (py_le a b) :=
  decide (py_lt b a = false).

(** The order an index is kept in: sort key first, position of the
    record second. *)
Definition pair_le (x y : V * nat) : Prop :=
  py_lt x.1 y.1 = true \/ (x.1 = y.1 /\ x.2 <= y.2).

Definition pair_lt (x y : V * nat) : Prop :=
  py_lt x.1 y.1 = true \/ (x.1 = y.1 /\ x.2 < y.2).

(** A sequence of [append] calls on one instance, each under the
    registry in force when it is made, up to the first exception. *)
Fixpoint run_appends (self : LogContainer V E)
    (steps : list (gmap string (V -> result V) * E))
    : LogContainer V E * result unit :=
  match steps with
  | [] => (self, Ok tt)
  | (convs, entry) :: rest =>
      match append convs self entry with
      | (self', Ok _) => run_appends self' rest
      | (self', Raise e) => (self', Raise e)
      end
  end.

(** The states an instance built with [searchable_fields] can be in:
    any number of [append] calls, whether they returned or raised. *)
Inductive reachable (searchable_fields : list string)
    : LogContainer V E -> Prop :=
  | reachable_init :
      reachable searchable_fields (LogContainer_init searchable_fields)
  | reachable_append self convs entry :
      reachable searchable_fields self ->
      reachable searchable_fields (append convs self entry).1.

(** How often a name is listed in [searchable_fields]. *)
Definition occurrences (field : string) (fields : list string) : nat :=
  length (filter (fun g => g = field) fields).

(** The pairs one [append] puts into the index of [field]: the sort key
    of the record under the registry of that call, with the position of
    the record, once for every time [field] is listed. *)
Definition step_pairs (copies : nat) (field : string) (position : nat)
    (step : gmap string (V -> result V) * E) : list (V * nat) :=
  match sortable_value step.1 step.2 field with
  | Ok key => replicate copies (key, position)
  | Raise _ => []
  end.

(** The pairs the index of [field] is expected to hold after [steps],
    the first of which stored its record at [position]. *)
Fixpoint index_pairs (copies : nat) (field : string) (position : nat)
    (steps : list (gmap string (V -> result V) * E)) : list (V * nat) :=
  match steps with
  | [] => []
  | step :: rest =>
      step_pairs copies field position step
      ++ index_pairs copies field (S position) rest
  end.

(** What [append] maintains: the records are those of [steps], in order,
    and the index of every searchable field is sorted and holds exactly
    the expected pairs. *)
Definition index_invariant (fields : list string)
    (steps : list (gmap string (V -> result V) * E))
    (self : LogContainer V E) : Prop :=
  _searchable_fields self = fields
  /\ _entries self = steps.*2
  /\ forall field,
      (field ∈ fields ->
         exists bucket, _buckets self !! field = Some bucket
           /\ StronglySorted pair_le bucket
           /\ bucket ≡ₚ index_pairs (occurrences field fields) field 0 steps)
      /\ (field ∉ fields -> _buckets self !! field = None).

(** [p(key)] for the sort key of [e], false when it has none. *)
Definition key_satisfies (convs : gmap string (V -> result V))
    (field : string) (p : V -> bool) (e : E) : bool :=
  match sortable_value convs e field with
  | Ok key => p key
  | Raise _ => false
  end.

(** The records among [ents] whose sort key for [field] satisfies [p],
    in the order of [ents]. *)
Definition with_key (convs : gmap string (V -> result V)) (field : string)
    (p : V -> bool) (ents : list E) : list E :=
  filter (fun e => key_satisfies convs field p e = true) ents.
End Vocabulary.

(** Binary search for the end of the prefix on which [p] holds; both
    [bisect] loops are instances of it. *)
Fixpoint partition_point {T} (p : T -> bool) (fuel : nat) (a : list T)
    (lo hi : nat) : nat :=
  match fuel with
  | 0 => lo
  | S fuel' =>
      if lo <? hi then
        let mid := (lo + hi) / 2 in
        match a !! mid with
        | Some y =>
            if p y then partition_point p fuel' a (mid + 1) hi
            else partition_point p fuel' a lo mid
        | None => lo
        end
      else lo
  end.

(** A record whose message is closed by the boundary marker. *)
Definition terminated (o : pyobj) : Prop :=
  exists e, o = LogEntryObj e /\ ends_with_boundary (message e) = true.

(** ** Data for the examples

    [Entry] is the named tuple of [test_logparser.py]; [load_container]
    is the container its tests search. *)

Definition Entry (a b : pyval) : pyobj := NamedTuple [("a", a); ("b", b)].

(** The registry before any [CustomLog] exists. *)
Definition no_converters : gmap string (pyval -> result pyval) := ∅.

Definition under (convs : gmap string (pyval -> result pyval))
    (ents : list pyobj)
    : list (gmap string (pyval -> result pyval) * pyobj) :=
  (fun e => (convs, e)) <$> ents.

Definition test_entries : list pyobj :=
  [Entry (VInt 1) (VStr "+"); Entry (VInt 2) (VStr "-");
   Entry (VInt 3) (VStr "/"); Entry (VInt 2) (VStr "%")].

Definition load_container : LogContainer pyval pyobj :=
  (run_appends (LogContainer_init ["a"]) (under no_converters test_entries)).1.

(** ** The query functions of the module *)

Section QueryFunctions.
Context {V : Type} `{PyValue V} {E : Type} `{Attributes E V}.

Definition find_entries_with_log_level (convs : gmap string (V -> result V))
    (log_container : LogContainer V E) (log_level : V) : result (list E) :=
  find_by convs log_container "loglevel" log_level py_None.

Definition find_entries_with_business_id (convs : gmap string (V -> result V))
    (log_container : LogContainer V E) (business_id : V) : result (list E) :=
  find_by convs log_container "businessid" business_id py_None.

Definition find_entries_with_session_id (convs : gmap string (V -> result V))
    (log_container : LogContainer V E) (session_id : V) : result (list E) :=
  find_by convs log_container "sessionid" session_id py_None.
End QueryFunctions.

(** [if isinstance(date, str): date = datetime.strptime(date,
    log_container.date_format)], for a [CustomLog] (the class that has
    [date_format]). *)
Definition parse_if_str (date : pyval) : result pyval :=
  match date with
  | VStr s => d ← strptime s; Ok (VDate d)
  | _ => Ok date
  end.

Definition find_entries_within_date_range
    (convs : gmap string (pyval -> result pyval))
    (log_container : LogContainer pyval pyobj) (date_from date_to : pyval)
    : result (list pyobj) :=
  date_from ← parse_if_str date_from;
  date_to ← parse_if_str date_to;
  find_by convs log_container "date" date_from date_to.

(** ** Vocabulary for the statements about [CustomLog] *)

#[export] Instance datetime_eq_dec : EqDecision datetime.
Proof. solve_decision. Defined.

#[export] Instance pyval_eq_dec : EqDecision pyval.
Proof. solve_decision. Defined.

(** The severities [_loglevel_converter] knows. *)
Definition recognised (level : string) : bool :=
  String.eqb level "ERROR" || String.eqb level "WARN"
  || String.eqb level "DEBUG".

(** [a <= b] on dates and times. *)
Definition chronological (a b : datetime) : Prop :=
  datetime_compare a b <> Gt.

(** A tag followed by a non-empty body of characters in [body]. *)
Definition tagged (tag : string) (body : ascii -> bool) (s : string) : Prop :=
  exists b, s = tag +:+ b /\ str_empty b = false /\ str_forall body b = true.

(** What the header pattern and [strptime] guarantee of a record, and
    that its message starts with the boundary marker. *)
Definition header_fields_ok (e : LogEntry) : Prop :=
  valid_datetime (date e) = true
  /\ (str_empty (loglevel e) = false /\ str_forall is_word (loglevel e) = true)
  /\ tagged "SID:" is_digit (sessionid e)
  /\ tagged "BID:" is_digit (businessid e)
  /\ tagged "RID:" is_hex (requestid e)
  /\ exists body, message e = String _message_boundary body.

Definition wellformed (o : pyobj) : Prop :=
  exists e, o = LogEntryObj e /\ header_fields_ok e
    /\ ends_with_boundary (message e) = true.

(** [o.<field>[4:] == query[4:]] for a string attribute. *)
Definition xid_matches (field : string) (query : string) (o : pyobj) : bool :=
  match getattr o field with
  | Some (VStr s) => String.eqb (str_drop 4 s) (str_drop 4 query)
  | _ => false
  end.

(** The calls a program can make on the module, and their effect on the
    interpreter state; exceptions are caught by the caller. *)
Inductive call : Type :=
  | Call_LogContainer (searchable_fields : list string)
  | Call_CustomLog
  | Call_append (ref : nat) (entry : pyobj)
  | Call_load (ref : nat) (text : string).

Definition run_call (st : interpreter) (c : call) : interpreter :=
  match c with
  | Call_LogContainer fields => (new_LogContainer fields st).1
  | Call_CustomLog => (new_CustomLog st).1
  | Call_append ref entry => (call_append ref entry st).1
  | Call_load ref text => (call_load ref text st).1
  end.

Definition run_calls (st : interpreter) (calls : list call) : interpreter :=
  foldl run_call st calls.

(** [o.loglevel == level] *)
Definition has_loglevel (level : string) (o : pyobj) : bool :=
  match getattr o "loglevel" with
  | Some (VStr s) => String.eqb s level
  | _ => false
  end.

(** [date_from <= o.date <= date_to] *)
Definition dated_within (date_from date_to : datetime) (o : pyobj) : bool :=
  match getattr o "date" with
  | Some (VDate d) =>
      negb (pyval_lt (VDate d) (VDate date_from))
      && negb (pyval_lt (VDate date_to) (VDate d))
  | _ => false
  end.

(** [a.date <= b.date] *)
Definition not_dated_after (a b : pyobj) : Prop :=
  exists d d', getattr a "date" = Some (VDate d)
    /\ getattr b "date" = Some (VDate d')
    /\ chronological d d'.

Definition creates_CustomLog (c : call) : bool :=
  match c with
  | Call_CustomLog => true
  | _ => false
  end.

(** * Proofs *)

(** ** The order on Python values *)

Lemma lex_Eq c1 c2 : lex c1 c2 = Eq <-> c1 = Eq /\ c2 = Eq.
Proof. destruct c1; simpl; intuition congruence. Qed.

Lemma lex_opp c1 c2 : CompOpp (lex c1 c2) = lex (CompOpp c1) (CompOpp c2).
Proof. by destruct c1. Qed.

Lemma lex_Lt c1 c2 :
  lex c1 c2 = Lt <-> c1 = Lt \/ (c1 = Eq /\ c2 = Lt).
Proof. destruct c1; simpl; intuition congruence. Qed.

Lemma string_compare_refl s : String.compare s s = Eq.
Proof.
  induction s as [|c s IH]; simpl; [done|].
  unfold Ascii.compare. by rewrite N.compare_refl.
Qed.

Lemma string_compare_trans s1 s2 s3 :
  String.compare s1 s2 = Lt -> String.compare s2 s3 = Lt ->
  String.compare s1 s3 = Lt.
Proof.
  revert s2 s3. induction s1 as [|c1 s1 IH]; intros [|c2 s2] [|c3 s3];
    simpl; try done.
  unfold Ascii.compare.
  destruct (N.compare_spec (N_of_ascii c1) (N_of_ascii c2)) as [E12|L12|G12];
    destruct (N.compare_spec (N_of_ascii c2) (N_of_ascii c3)) as [E23|L23|G23];
    try done; intros H12 H23.
  - rewrite E12, E23, N.compare_refl. eauto.
  - rewrite E12. by apply N.compare_lt_iff in L23 as ->.
  - rewrite <- E23. by apply N.compare_lt_iff in L12 as ->.
  - assert (N_of_ascii c1 < N_of_ascii c3)%N as L by lia.
    by apply N.compare_lt_iff in L as ->.
Qed.

Lemma datetime_compare_Eq a b : datetime_compare a b = Eq <-> a = b.
Proof.
  unfold datetime_compare. rewrite !lex_Eq, !Z.compare_eq_iff.
  destruct a, b; simpl. split; [|by intros [= -> -> -> -> -> ->]].
  intros (-> & -> & -> & -> & -> & ->). done.
Qed.

Lemma datetime_compare_opp a b :
  datetime_compare a b = CompOpp (datetime_compare b a).
Proof.
  unfold datetime_compare. rewrite !lex_opp, <- !Z.compare_antisym. done.
Qed.

Lemma datetime_compare_trans a b c :
  datetime_compare a b = Lt -> datetime_compare b c = Lt ->
  datetime_compare a c = Lt.
Proof.
  unfold datetime_compare.
  rewrite !lex_Lt, !Z.compare_eq_iff, !Z.compare_lt_iff. lia.
Qed.

Lemma pyval_compare_Eq a b : pyval_compare a b = Eq <-> a = b.
Proof.
  destruct a, b; simpl; try (split; [done|congruence]); try done.
  - rewrite Z.compare_eq_iff. split; congruence.
  - split; [intros ?%String.compare_eq_iff; congruence|].
    intros [= ->]. apply string_compare_refl.
  - rewrite datetime_compare_Eq. split; congruence.
Qed.

Lemma pyval_compare_opp a b :
  pyval_compare a b = CompOpp (pyval_compare b a).
Proof.
  destruct a, b; simpl; try done.
  - apply Z.compare_antisym.
  - apply String.compare_antisym.
  - apply datetime_compare_opp.
Qed.

Lemma pyval_compare_trans a b c :
  pyval_compare a b = Lt -> pyval_compare b c = Lt ->
  pyval_compare a c = Lt.
Proof.
  destruct a, b, c; simpl; try done.
  - rewrite !Z.compare_lt_iff. lia.
  - apply string_compare_trans.
  - apply datetime_compare_trans.
Qed.

#[export] Instance pyval_PyOrder : PyOrder pyval.
Proof.
  split.
  - done.
  - intros a b. simpl. unfold pyval_eq. rewrite <- pyval_compare_Eq.
    destruct (pyval_compare a b); split; congruence.
  - intros a. simpl. unfold pyval_lt.
    by rewrite (proj2 (pyval_compare_Eq a a) eq_refl).
  - intros a b c. simpl. unfold pyval_lt.
    destruct (pyval_compare a b) eqn:Hab; try done.
    destruct (pyval_compare b c) eqn:Hbc; try done.
    by rewrite (pyval_compare_trans _ _ _ Hab Hbc).
  - intros a b Hne. simpl. unfold pyval_lt.
    rewrite (pyval_compare_opp b a).
    destruct (pyval_compare a b) eqn:Hab; simpl; auto.
    by apply pyval_compare_Eq in Hab.
Qed.

(** ** The order on [(sort_key, position)] tuples *)

Section TupleOrder.
Context {V : Type} `{PyOrder V}.

Lemma py_eq_refl (a : V) : py_eq a a = true.
Proof. by apply py_eq_spec. Qed.

Lemma py_eq_false (a b : V) : py_eq a b = false <-> a <> b.
Proof.
  rewrite <- py_eq_spec. destruct (py_eq a b); split; congruence.
Qed.

Lemma py_lt_asym (a b : V) : py_lt a b = true -> py_lt b a = false.
Proof.
  intros Hab. destruct (py_lt b a) eqn:Hba; [|done].
  by rewrite <- (py_lt_irrefl a), (py_lt_trans a b a).
Qed.

Lemma py_lt_ne (a b : V) : py_lt a b = true -> a <> b.
Proof. intros Hab ->. by rewrite py_lt_irrefl in Hab. Qed.

Lemma py_le_cases (a b : V) : py_le a b <-> py_lt a b = true \/ a = b.
Proof.
  unfold py_le. split.
  - intros Hba. destruct (py_eq a b) eqn:Heq.
    + right. by apply py_eq_spec.
    + left. apply py_eq_false in Heq.
      destruct (py_lt_total a b Heq) as [?|Hlt]; [done|congruence].
  - intros [Hab| ->]; [by apply py_lt_asym | apply py_lt_irrefl].
Qed.

Lemma py_le_refl (a : V) : py_le a a.
Proof. apply py_lt_irrefl. Qed.

Lemma py_le_antisym (a b : V) : py_le a b -> py_le b a -> a = b.
Proof.
  rewrite !py_le_cases. intros [Hab|?] [Hba|?]; try done.
  apply py_lt_asym in Hab. congruence.
Qed.

Lemma py_lt_le_trans (a b c : V) :
  py_lt a b = true -> py_le b c -> py_lt a c = true.
Proof.
  rewrite py_le_cases. intros Hab [Hbc| <-]; [|done].
  by apply py_lt_trans with b.
Qed.

Lemma py_le_lt_trans (a b c : V) :
  py_le a b -> py_lt b c = true -> py_lt a c = true.
Proof.
  rewrite py_le_cases. intros [Hab| ->] Hbc; [|done].
  by apply py_lt_trans with b.
Qed.

Lemma py_le_trans (a b c : V) : py_le a b -> py_le b c -> py_le a c.
Proof.
  intros Hab Hbc. apply py_le_cases.
  apply py_le_cases in Hab as [Hab| ->]; [|by apply py_le_cases].
  left. by apply py_lt_le_trans with b.
Qed.

Lemma tuple_lt_pair_lt (x y : V * nat) : tuple_lt x y = true <-> pair_lt x y.
Proof.
  unfold tuple_lt, pair_lt. destruct (py_eq x.1 y.1) eqn:Heq.
  - apply py_eq_spec in Heq. rewrite Heq, py_lt_irrefl, Nat.ltb_lt.
    split; [by right | by intros [?|[_ ?]]].
  - apply py_eq_false in Heq. split; [by left | by intros [?|[? _]]].
Qed.

Lemma tuple_lt_pair_le (x y : V * nat) : tuple_lt y x = false <-> pair_le x y.
Proof.
  unfold tuple_lt, pair_le. destruct (py_eq y.1 x.1) eqn:Heq.
  - apply py_eq_spec in Heq. rewrite Heq, py_lt_irrefl, Nat.ltb_ge.
    split; [by right | by intros [?|[_ ?]]].
  - apply py_eq_false in Heq. split.
    + intros Hlt. left.
      destruct (py_lt_total _ _ Heq); [congruence|done].
    + intros [Hlt|[? _]]; [by apply py_lt_asym | congruence].
Qed.

Lemma pair_lt_le (x y : V * nat) : pair_lt x y -> pair_le x y.
Proof.
  unfold pair_lt, pair_le. intros [?|[? ?]]; [by left | right; split; [done|lia]].
Qed.

Lemma pair_le_not_lt (x y : V * nat) : pair_le x y <-> ~ pair_lt y x.
Proof.
  rewrite <- tuple_lt_pair_le, <- tuple_lt_pair_lt.
  destruct (tuple_lt y x); split; congruence.
Qed.

#[export] Instance pair_le_trans : Transitive (pair_le (V:=V)).
Proof.
  intros [a i] [b j] [c k]. unfold pair_le. simpl.
  intros [Hab|[-> Hij]] [Hbc|[-> Hjk]].
  - left. by apply py_lt_trans with b.
  - by left.
  - by left.
  - right. split; [done | lia].
Qed.

#[export] Instance pair_le_antisym : AntiSymm eq (pair_le (V:=V)).
Proof.
  intros [a i] [b j]. unfold pair_le. simpl.
  intros [Hab|[-> Hij]] [Hba|[E Hji]].
  - apply py_lt_asym in Hab. congruence.
  - subst. by rewrite py_lt_irrefl in Hab.
  - by rewrite py_lt_irrefl in Hba.
  - f_equal. lia.
Qed.

Lemma pair_lt_le_trans (x y z : V * nat) :
  pair_lt x y -> pair_le y z -> pair_lt x z.
Proof.
  destruct x as [a i], y as [b j], z as [c k]. unfold pair_lt, pair_le. simpl.
  intros [Hab|[-> Hij]] [Hbc|[-> Hjk]].
  - left. by apply py_lt_trans with b.
  - by left.
  - by left.
  - right. split; [done | lia].
Qed.

Lemma pair_le_lt_trans (x y z : V * nat) :
  pair_le x y -> pair_lt y z -> pair_lt x z.
Proof.
  destruct x as [a i], y as [b j], z as [c k]. unfold pair_lt, pair_le. simpl.
  intros [Hab|[-> Hij]] [Hbc|[-> Hjk]].
  - left. by apply py_lt_trans with b.
  - by left.
  - by left.
  - right. split; [done | lia].
Qed.
End TupleOrder.

(** ** [bisect] on a sorted list *)

Section BisectFacts.
Context {T : Type}.

Lemma bisect_left_loop_partition (lt : T -> T -> bool) fuel a x lo hi :
  bisect_left_loop lt fuel a x lo hi
  = partition_point (fun y => lt y x) fuel a lo hi.
Proof.
  revert lo hi. induction fuel as [|fuel IH]; intros lo hi;
    cbn [bisect_left_loop partition_point]; [done|].
  destruct (lo <? hi); [|done].
  destruct (a !! ((lo + hi) / 2)) as [y|]; [|done].
  by rewrite !IH.
Qed.

Lemma bisect_right_loop_partition (lt : T -> T -> bool) fuel a x lo hi :
  bisect_right_loop lt fuel a x lo hi
  = partition_point (fun y => negb (lt x y)) fuel a lo hi.
Proof.
  revert lo hi. induction fuel as [|fuel IH]; intros lo hi;
    cbn [bisect_right_loop partition_point]; [done|].
  destruct (lo <? hi); [|done].
  destruct (a !! ((lo + hi) / 2)) as [y|]; [|done].
  rewrite !IH. by destruct (lt x y).
Qed.

(** On a list that satisfies [p] up to some point and fails it from
    there on, the search returns that point, clipped to [[lo, hi]]. *)
Lemma partition_point_spec (p : T -> bool) (l1 l2 : list T) :
  Forall (fun y => p y = true) l1 ->
  Forall (fun y => p y = false) l2 ->
  forall fuel lo hi,
    lo <= hi <= length (l1 ++ l2) -> hi - lo <= fuel ->
    partition_point p fuel (l1 ++ l2) lo hi = lo `max` (length l1 `min` hi).
Proof.
  intros H1 H2. induction fuel as [|fuel IH]; intros lo hi Hb Hf;
    cbn [partition_point].
  { lia. }
  destruct (Nat.ltb_spec lo hi) as [Hlt|Hge]; [|lia].
  assert (lo <= (lo + hi) / 2 < hi) as Hmid.
  { split; [apply Nat.div_le_lower_bound | apply Nat.Div0.div_lt_upper_bound]; lia. }
  destruct ((l1 ++ l2) !! ((lo + hi) / 2)) as [y|] eqn:Ey.
  2: { apply lookup_ge_None in Ey. lia. }
  destruct (decide ((lo + hi) / 2 < length l1)) as [Hin|Hout].
  - rewrite lookup_app_l in Ey by done.
    rewrite (proj1 (Forall_lookup _ _) H1 _ _ Ey).
    rewrite IH by lia. lia.
  - rewrite lookup_app_r in Ey by lia.
    rewrite (proj1 (Forall_lookup _ _) H2 _ _ Ey).
    rewrite IH by lia. lia.
Qed.

(** In a sorted list a downward-closed predicate holds on a prefix. *)
Lemma sorted_prefix (R : relation T) (p : T -> bool) (a : list T) :
  StronglySorted R a ->
  (forall y z, R y z -> p z = true -> p y = true) ->
  exists l1 l2, a = l1 ++ l2
    /\ Forall (fun y => p y = true) l1 /\ Forall (fun y => p y = false) l2.
Proof.
  intros Hs Hdown. induction Hs as [|y a Hs IH Hy].
  { exists [], []. by repeat split. }
  destruct (p y) eqn:Hp.
  - destruct IH as (l1 & l2 & -> & H1 & H2).
    exists (y :: l1), l2. repeat split; [|done]. by constructor.
  - exists [], (y :: a). repeat split; [by constructor|].
    constructor; [done|]. apply Forall_forall. intros z Hz.
    destruct (p z) eqn:Hpz; [|done].
    rewrite Forall_forall in Hy. rewrite <- Hp. symmetry.
    by apply (Hdown y z); [apply Hy|].
Qed.

Lemma filter_none (P : T -> Prop) `{forall x, Decision (P x)} (l : list T) :
  Forall (fun x => ~ P x) l -> filter P l = [].
Proof.
  induction 1 as [|x l Hx _ IH]; [done|]. by rewrite filter_cons_False.
Qed.

Lemma filter_all (P : T -> Prop) `{forall x, Decision (P x)} (l : list T) :
  Forall P l -> filter P l = l.
Proof.
  induction 1 as [|x l Hx _ IH]; [done|].
  rewrite filter_cons_True by done. by rewrite IH.
Qed.

(** The slice between the two partition points is the sublist of the
    elements that fail [p] and satisfy [q]. *)
Lemma slice_between (p q : T -> bool) (l1 r1 l2 r2 : list T) :
  l1 ++ r1 = l2 ++ r2 ->
  Forall (fun y => p y = true) l1 -> Forall (fun y => p y = false) r1 ->
  Forall (fun y => q y = true) l2 -> Forall (fun y => q y = false) r2 ->
  slice (l1 ++ r1) (length l1) (length l1 `max` length l2)
  = filter (fun y => p y = false /\ q y = true) (l1 ++ r1).
Proof.
  intros Happ Hl1 Hr1 Hl2 Hr2. unfold slice.
  rewrite drop_app_length.
  apply app_eq_app in Happ as [m [[-> ->]|[-> ->]]].
  - (* the second point lies at or before the first: nothing is selected *)
    rewrite length_app.
    replace ((length l2 + length m) `max` length l2 - (length l2 + length m))
      with 0 by lia.
    rewrite take_0. symmetry. apply filter_none.
    apply Forall_app in Hl1 as [Hl2p Hmp], Hr2 as [Hmq Hr1q].
    rewrite !Forall_app. repeat split.
    + eapply Forall_impl; [exact Hl2p|]. simpl. intros y Hy [? _]. congruence.
    + eapply Forall_impl; [exact Hmp|]. simpl. intros y Hy [? _]. congruence.
    + eapply Forall_impl; [exact Hr1q|]. simpl. intros y Hy [_ ?]. congruence.
  - rewrite length_app.
    replace (length l1 `max` (length l1 + length m) - length l1)
      with (length m) by lia.
    rewrite take_app_length.
    apply Forall_app in Hr1 as [Hmp Hr2p], Hl2 as [Hl1q Hmq].
    rewrite !filter_app.
    rewrite (filter_none _ l1), (filter_all _ m), (filter_none _ r2).
    + by rewrite app_nil_r.
    + eapply Forall_impl; [exact Hr2|]. simpl. intros y Hy [_ ?]. congruence.
    + apply Forall_forall. intros y Hy. rewrite Forall_forall in Hmp, Hmq. auto.
    + eapply Forall_impl; [exact Hl1|]. simpl. intros y Hy [? _]. congruence.
Qed.
End BisectFacts.

(** ** [insort_right] and [find_slice] on a sorted index *)

Section IndexFacts.
Context {V : Type} `{PyOrder V}.

Lemma below_downward (x : V * nat) (y z : V * nat) :
  pair_le y z -> tuple_lt z x = true -> tuple_lt y x = true.
Proof.
  rewrite !tuple_lt_pair_lt. intros Hyz Hzx. by apply pair_le_lt_trans with z.
Qed.

Lemma not_above_downward (x : V * nat) (y z : V * nat) :
  pair_le y z -> negb (tuple_lt x z) = true -> negb (tuple_lt x y) = true.
Proof.
  rewrite !negb_true_iff, !tuple_lt_pair_le. intros Hyz Hzx.
  by transitivity z.
Qed.

(** [bisect_left] returns the number of elements below [x]. *)
Lemma bisect_left_sorted (bucket : list (V * nat)) (x : V * nat) :
  StronglySorted pair_le bucket ->
  exists l1 r1, bucket = l1 ++ r1
    /\ Forall (fun y => tuple_lt y x = true) l1
    /\ Forall (fun y => tuple_lt y x = false) r1
    /\ bisect_left tuple_lt bucket x 0 = length l1.
Proof.
  intros Hs.
  destruct (sorted_prefix pair_le (fun y => tuple_lt y x) bucket Hs
              (below_downward x)) as (l1 & r1 & -> & H1 & H2).
  exists l1, r1. repeat split; try done.
  unfold bisect_left. rewrite bisect_left_loop_partition.
  rewrite (partition_point_spec _ l1 r1 H1 H2) by lia.
  rewrite length_app. lia.
Qed.

(** [bisect_right] from [lo] returns the number of elements not above
    [x], or [lo] if that is more. *)
Lemma bisect_right_sorted (bucket : list (V * nat)) (x : V * nat) (lo : nat) :
  StronglySorted pair_le bucket -> lo <= length bucket ->
  exists l2 r2, bucket = l2 ++ r2
    /\ Forall (fun y => negb (tuple_lt x y) = true) l2
    /\ Forall (fun y => negb (tuple_lt x y) = false) r2
    /\ bisect_right tuple_lt bucket x lo = lo `max` length l2.
Proof.
  intros Hs Hlo.
  destruct (sorted_prefix pair_le (fun y => negb (tuple_lt x y)) bucket Hs
              (not_above_downward x)) as (l2 & r2 & -> & H1 & H2).
  exists l2, r2. repeat split; try done.
  unfold bisect_right. rewrite bisect_right_loop_partition.
  rewrite (partition_point_spec _ l2 r2 H1 H2) by lia.
  rewrite length_app. lia.
Qed.

Lemma insort_right_perm (bucket : list (V * nat)) (x : V * nat) :
  insort_right tuple_lt bucket x ≡ₚ x :: bucket.
Proof.
  unfold insort_right, list_insert_at.
  rewrite <- Permutation_middle. by rewrite take_drop.
Qed.

Lemma insort_right_sorted (bucket : list (V * nat)) (x : V * nat) :
  StronglySorted pair_le bucket ->
  StronglySorted pair_le (insort_right tuple_lt bucket x).
Proof.
  intros Hs.
  destruct (bisect_right_sorted bucket x 0 Hs) as (l2 & r2 & -> & H1 & H2 & Hb);
    [lia|].
  unfold insort_right, list_insert_at. rewrite Hb, Nat.max_0_l.
  rewrite take_app_length, drop_app_length.
  apply StronglySorted_app in Hs as (Hcross & Hl2 & Hr2).
  rewrite Forall_forall in H1, H2.
  apply StronglySorted_app_2; [|done|].
  - intros y z Hy Hz. apply elem_of_cons in Hz as [->|Hz].
    + apply tuple_lt_pair_le, negb_true_iff, H1, Hy.
    + by apply Hcross.
  - constructor; [done|]. apply Forall_forall. intros z Hz.
    apply pair_lt_le, tuple_lt_pair_lt. apply negb_false_iff, H2, Hz.
Qed.

(** On pairs whose position is below [n], comparing with [(lo, 0)] and
    [(hi, n)] compares the sort keys with [lo] and [hi]. *)
Lemma below_low_bound (k lo : V) (i : nat) :
  tuple_lt (k, i) (lo, 0) = py_lt k lo.
Proof.
  unfold tuple_lt. simpl. destruct (py_eq k lo) eqn:Heq; [|done].
  apply py_eq_spec in Heq as ->. rewrite py_lt_irrefl. apply Nat.ltb_ge. lia.
Qed.

Lemma above_high_bound (k hi : V) (i n : nat) :
  i <= n -> tuple_lt (hi, n) (k, i) = py_lt hi k.
Proof.
  intros Hi. unfold tuple_lt. simpl. destruct (py_eq hi k) eqn:Heq; [|done].
  apply py_eq_spec in Heq as ->. rewrite py_lt_irrefl. apply Nat.ltb_ge. lia.
Qed.

(** The pairs [find_by] selects from a sorted index are those whose sort
    key lies between the converted bounds. *)
Lemma find_slice_filter {E : Type} (self : LogContainer V E)
    (bucket : list (V * nat)) (lo hi : V) :
  StronglySorted pair_le bucket ->
  Forall (fun y => y.2 <= length (_entries self)) bucket ->
  find_slice self bucket lo hi
  = filter (fun y => py_le lo y.1 /\ py_le y.1 hi) bucket.
Proof.
  intros Hs Hpos. unfold find_slice.
  destruct (bisect_left_sorted bucket (lo, 0) Hs)
    as (l1 & r1 & E1 & Hl1 & Hr1 & ->).
  destruct (bisect_right_sorted bucket (hi, length (_entries self))
              (length l1) Hs) as (l2 & r2 & E2 & Hl2 & Hr2 & ->).
  { rewrite E1, length_app. lia. }
  rewrite E1 in E2 |- *.
  rewrite (slice_between _ _ l1 r1 l2 r2 E2 Hl1 Hr1 Hl2 Hr2).
  rewrite <- E1. clear -Hpos H0.
  induction Hpos as [|[k i] bucket Hi _ IH]; [done|].
  rewrite !filter_cons, IH. simpl in Hi.
  assert ((tuple_lt (k, i) (lo, 0) = false
           /\ negb (tuple_lt (hi, length (_entries self)) (k, i)) = true)
          <-> py_le lo (k, i).1 /\ py_le (k, i).1 hi) as Hiff.
  { rewrite below_low_bound, (above_high_bound _ _ _ _ Hi), negb_true_iff.
    done. }
  repeat case_decide; tauto.
Qed.
End IndexFacts.

(** ** What [append] does to the indices *)

Section AppendFacts.
Context {V : Type} `{PyOrder V} {E : Type} `{Attributes E V}.

Lemma init_lookup (fields : list string) (g : string) :
  _buckets (LogContainer_init (V:=V) (E:=E) fields) !! g
  = if decide (g ∈ fields) then Some [] else None.
Proof.
  cbn [LogContainer_init _buckets]. induction fields as [|f fields IH].
  { rewrite fmap_nil, list_to_map_nil, lookup_empty.
    by rewrite decide_False by set_solver. }
  rewrite fmap_cons, list_to_map_cons.
  destruct (decide (f = g)) as [->|Hne].
  - rewrite lookup_insert_eq. by rewrite decide_True by set_solver.
  - rewrite lookup_insert_ne, IH by done.
    destruct (decide (g ∈ fields)) as [Hg|Hg].
    + by rewrite decide_True by (by right).
    + rewrite decide_False; [done|]. by intros [?|?]%elem_of_cons.
Qed.

Lemma occurrences_cons (g f : string) (fields : list string) :
  occurrences g (f :: fields)
  = if decide (f = g) then S (occurrences g fields) else occurrences g fields.
Proof. unfold occurrences. rewrite filter_cons. by case_decide. Qed.

Lemma occurrences_pos (g : string) (fields : list string) :
  0 < occurrences g fields <-> g ∈ fields.
Proof.
  induction fields as [|f fields IH]; [by split; [inversion 1|set_solver]|].
  rewrite occurrences_cons, elem_of_cons. case_decide.
  - split; [by left | lia].
  - rewrite IH. split; [by right | by intros [?|?]].
Qed.

(** The loop never adds or removes a key of [_buckets]. *)
Lemma append_loop_dom convs (e : E) n fields :
  forall buckets buckets' (r : result unit),
    append_loop convs e n fields buckets = (buckets', r) ->
    forall g, is_Some (buckets' !! g) <-> is_Some (buckets !! g).
Proof.
  induction fields as [|f fields IH]; intros buckets buckets' r Hrun g;
    simpl in Hrun.
  { by injection Hrun as <- _. }
  destruct (sortable_value convs e f) as [k|err].
  2: { by destruct err; injection Hrun as <- _. }
  destruct (buckets !! f) as [bf|] eqn:Hbf.
  2: { by injection Hrun as <- _. }
  rewrite (IH _ _ _ Hrun g). destruct (decide (f = g)) as [->|Hne].
  - rewrite lookup_insert_eq, Hbf. split; eauto.
  - by rewrite lookup_insert_ne.
Qed.

(** A loop that ends without exception found a sort key for every
    listed field and inserted its pair once per listing, keeping every
    sorted index sorted. *)
Lemma append_loop_ok convs (e : E) n fields :
  forall buckets buckets',
    append_loop convs e n fields buckets = (buckets', Ok tt) ->
    (forall g, g ∈ fields -> exists k, sortable_value convs e g = Ok k)
    /\ forall g,
        match buckets !! g with
        | None => buckets' !! g = None
        | Some b =>
            exists b', buckets' !! g = Some b'
              /\ (StronglySorted pair_le b -> StronglySorted pair_le b')
              /\ b' ≡ₚ step_pairs (occurrences g fields) g n (convs, e) ++ b
        end.
Proof.
  induction fields as [|f fields IH]; intros buckets buckets' Hrun;
    simpl in Hrun.
  { injection Hrun as <-. split; [intros g Hg; by inversion Hg|].
    intros g. destruct (buckets !! g) as [b|]; [|done].
    exists b. repeat split; [done|].
    unfold step_pairs. simpl. by destruct (sortable_value convs e g). }
  destruct (sortable_value convs e f) as [k|err] eqn:Hk.
  2: { by destruct err. }
  destruct (buckets !! f) as [bf|] eqn:Hbf; [|done].
  apply IH in Hrun as [Hkeys Hb]. split.
  { intros g [->|Hg]%elem_of_cons; eauto. }
  intros g. specialize (Hb g). rewrite occurrences_cons.
  destruct (decide (f = g)) as [->|Hne].
  - rewrite lookup_insert_eq in Hb. rewrite Hbf.
    destruct Hb as (b' & Hb' & Hs & Hp). exists b'. repeat split; [done| |].
    + intros Hbf_sorted. by apply Hs, insort_right_sorted.
    + rewrite Hp, insort_right_perm. unfold step_pairs. simpl. rewrite Hk.
      simpl. by rewrite Permutation_middle.
  - by rewrite lookup_insert_ne in Hb.
Qed.

Lemma index_pairs_app copies g pos
    (s1 s2 : list (gmap string (V -> result V) * E)) :
  index_pairs copies g pos (s1 ++ s2)
  = index_pairs copies g pos s1 ++ index_pairs copies g (pos + length s1) s2.
Proof.
  revert pos. induction s1 as [|s s1 IH]; intros pos; simpl.
  { by rewrite Nat.add_0_r. }
  rewrite IH, <- app_assoc. do 3 f_equal. lia.
Qed.

Lemma init_invariant (fields : list string) :
  index_invariant fields [] (LogContainer_init (V:=V) (E:=E) fields).
Proof.
  repeat split; intros Hf; rewrite init_lookup.
  - rewrite decide_True by done. exists []. repeat split; constructor.
  - by rewrite decide_False.
Qed.

Lemma append_invariant fields steps (self self' : LogContainer V E) convs e :
  index_invariant fields steps self ->
  append convs self e = (self', Ok tt) ->
  index_invariant fields (steps ++ [(convs, e)]) self'.
Proof.
  intros (Hfields & Hents & Hidx) Happ. unfold append in Happ.
  destruct (append_loop _ _ _ _ _) as [buckets' r] eqn:Hloop.
  injection Happ as <- ->.
  apply append_loop_ok in Hloop as [_ Hb].
  repeat split; simpl; [done|by rewrite Hents, fmap_app|..]; intros Hf.
  - destruct (proj1 (Hidx field) Hf) as (b & Hlook & Hsorted & Hperm).
    specialize (Hb field). rewrite Hlook in Hb.
    destruct Hb as (b' & Hb' & Hs & Hp). exists b'. repeat split; [done|auto|].
    rewrite Hp, Hperm, index_pairs_app. simpl.
    rewrite app_nil_r, Permutation_app_comm. rewrite Hfields.
    repeat f_equiv. rewrite Hents, length_app, length_fmap. simpl. lia.
  - specialize (Hb field). by rewrite (proj2 (Hidx field) Hf) in Hb.
Qed.

Lemma run_appends_invariant fields steps :
  forall pre (self self' : LogContainer V E),
    index_invariant fields pre self ->
    run_appends self steps = (self', Ok tt) ->
    index_invariant fields (pre ++ steps) self'.
Proof.
  induction steps as [|[convs e] steps IH]; intros pre self self' Hinv Hrun;
    simpl in Hrun.
  { injection Hrun as <-. by rewrite app_nil_r. }
  destruct (append convs self e) as [self1 [[]|err]] eqn:Happ; [|done].
  replace (pre ++ (convs, e) :: steps) with ((pre ++ [(convs, e)]) ++ steps)
    by (by rewrite <- app_assoc).
  eapply IH; [|done]. by eapply append_invariant.
Qed.

(** Every record of a run without exception has a sort key for every
    searchable field. *)
Lemma run_appends_keys fields steps :
  forall (self self' : LogContainer V E),
    _searchable_fields self = fields ->
    run_appends self steps = (self', Ok tt) ->
    forall convs e g, (convs, e) ∈ steps -> g ∈ fields ->
      exists k, sortable_value convs e g = Ok k.
Proof.
  induction steps as [|[convs0 e0] steps IH]; intros self self' Hf Hrun;
    simpl in Hrun; intros convs e g Hin Hg.
  { by inversion Hin. }
  destruct (append convs0 self e0) as [self1 [[]|err]] eqn:Happ; [|done].
  unfold append in Happ.
  destruct (append_loop _ _ _ _ _) as [buckets' r] eqn:Hloop.
  injection Happ as <- ->.
  apply elem_of_cons in Hin as [[= -> ->]|Hin].
  - apply append_loop_ok in Hloop as [Hkeys _]. apply Hkeys. by rewrite Hf.
  - eapply IH; [|exact Hrun|exact Hin|exact Hg]. exact Hf.
Qed.
End AppendFacts.

(** ** The indices after a run of appends *)

Section IndexContents.
Context {V : Type} `{PyOrder V} {E : Type} `{Attributes E V}.

Lemma step_pairs_position copies f pos
    (step : gmap string (V -> result V) * E) :
  Forall (fun p => p.2 = pos) (step_pairs copies f pos step).
Proof.
  unfold step_pairs. destruct (sortable_value _ _ _); [|constructor].
  apply Forall_forall. by intros p [-> _]%elem_of_replicate.
Qed.

Lemma index_pairs_position copies f
    (steps : list (gmap string (V -> result V) * E)) :
  forall pos,
    Forall (fun p => pos <= p.2 < pos + length steps)
      (index_pairs copies f pos steps).
Proof.
  induction steps as [|step steps IH]; intros pos; simpl; [constructor|].
  apply Forall_app. split.
  - eapply Forall_impl; [apply step_pairs_position|]. simpl. lia.
  - eapply Forall_impl; [apply IH|]. simpl. lia.
Qed.

(** The expected pairs that carry position [i] are those of step [i]. *)
Lemma index_pairs_at copies f
    (steps : list (gmap string (V -> result V) * E)) (i : nat) :
  forall pos step, steps !! i = Some step ->
    filter (fun p => p.2 = pos + i) (index_pairs copies f pos steps)
    = step_pairs copies f (pos + i) step.
Proof.
  revert i. induction steps as [|s steps IH]; intros i pos step Hi; [done|].
  simpl. rewrite filter_app. destruct i as [|i]; simpl in Hi.
  - injection Hi as ->. rewrite Nat.add_0_r.
    rewrite filter_all by apply step_pairs_position.
    rewrite filter_none; [by rewrite app_nil_r|].
    eapply Forall_impl; [apply index_pairs_position|]. simpl. lia.
  - rewrite filter_none.
    2: { eapply Forall_impl; [apply step_pairs_position|]. simpl. lia. }
    replace (pos + S i) with (S pos + i) by lia. by apply IH.
Qed.

Lemma StronglySorted_filter {A} (R : relation A) (P : A -> Prop)
    `{forall x, Decision (P x)} (l : list A) :
  StronglySorted R l -> StronglySorted R (filter P l).
Proof.
  induction 1 as [|x l Hs IH Hx]; [constructor|].
  rewrite filter_cons. case_decide; [|done].
  constructor; [done|]. apply Forall_forall. intros y [_ Hy]%list_elem_of_filter.
  rewrite Forall_forall in Hx. auto.
Qed.
End IndexContents.

(** C4 (as amended). After any sequence of appends that all returned, on
    an instance built with [fields], the index of every searchable field
    is sorted by sort key first and record position second; every pair in
    it refers to a stored record; and for the record at each position it
    holds the pair of that record's sort key and position exactly as many
    times as the field is listed in [fields] - once when it is listed
    once. Each append may run under its own registry. *)
Theorem append_keeps_indices {V : Type} `{PyOrder V} {E : Type}
    `{Attributes E V} (fields : list string)
    (steps : list (gmap string (V -> result V) * E))
    (self : LogContainer V E) :
  run_appends (LogContainer_init fields) steps = (self, Ok tt) ->
  entries self = steps.*2
  /\ forall field, field ∈ fields ->
       exists bucket, _buckets self !! field = Some bucket
         /\ StronglySorted pair_le bucket
         /\ (forall p, p ∈ bucket -> p.2 < length (entries self))
         /\ forall i convs e, steps !! i = Some (convs, e) ->
              exists key, sortable_value convs e field = Ok key
                /\ filter (fun p => p.2 = i) bucket
                   = replicate (occurrences field fields) (key, i).
Proof.
  intros Hrun.
  pose proof (run_appends_invariant fields steps [] _ _
                (init_invariant fields) Hrun) as (_ & Hents & Hidx).
  simpl in Hents, Hidx. split; [done|]. intros field Hfield.
  destruct (proj1 (Hidx field) Hfield) as (bucket & Hlook & Hsorted & Hperm).
  exists bucket. repeat split; [done..| |].
  - intros p Hp. rewrite Hperm in Hp.
    pose proof (index_pairs_position (occurrences field fields) field steps 0)
      as Hpos.
    rewrite Forall_forall in Hpos. apply Hpos in Hp.
    unfold entries. rewrite Hents, length_fmap. lia.
  - intros i convs e Hi.
    destruct (run_appends_keys fields steps (LogContainer_init fields) self
                eq_refl Hrun convs e field)
      as [key Hkey]; [by eapply list_elem_of_lookup_2|done|].
    exists key. split; [done|]. symmetry. apply replicate_Permutation.
    rewrite Hperm.
    rewrite (index_pairs_at _ _ steps i 0 _ Hi). unfold step_pairs. simpl.
    by rewrite Hkey.
Qed.

Lemma append_keeps_indices_witness :
  run_appends (LogContainer_init ["a"]) (under no_converters test_entries)
  = (load_container, Ok tt)
  /\ (entries load_container = (under no_converters test_entries).*2
      /\ forall field, field ∈ ["a"] ->
           exists bucket, _buckets load_container !! field = Some bucket
             /\ StronglySorted pair_le bucket
             /\ (forall p, p ∈ bucket -> p.2 < length (entries load_container))
             /\ forall i convs e,
                  under no_converters test_entries !! i = Some (convs, e) ->
                  exists key, sortable_value convs e field = Ok key
                    /\ filter (fun p => p.2 = i) bucket
                       = replicate (occurrences field ["a"]) (key, i)).
Proof.
  split; [vm_compute; reflexivity|].
  apply (append_keeps_indices ["a"] (under no_converters test_entries)).
  vm_compute. reflexivity.
Defined.

(** C4 as stated fails when a field name is listed twice: one record,
    two pairs in the index. *)
Lemma listed_twice_indexed_twice :
  exists self : LogContainer pyval pyobj,
    run_appends (LogContainer_init ["a"; "a"])
      (under no_converters [Entry (VInt 1) (VStr "+")]) = (self, Ok tt)
    /\ entries self = [Entry (VInt 1) (VStr "+")]
    /\ _buckets self !! "a" = Some [(VInt 1, 0); (VInt 1, 0)].
Proof. eexists. vm_compute. repeat split. Qed.

(** ** What [find_by] returns *)

Section FindFacts.
Context {V : Type} `{PyOrder V} {E : Type} `{Attributes E V}.

Lemma referenced_app (ents : list E) (p1 p2 : list (V * nat)) :
  referenced ents (p1 ++ p2)
  = (r1 ← referenced ents p1; r2 ← referenced ents p2; Ok (r1 ++ r2)).
Proof.
  induction p1 as [|[k i] p1 IH]; simpl.
  { by destruct (referenced ents p2). }
  destruct (ents !! i) as [e|]; [|done]. rewrite IH.
  destruct (referenced ents p1) as [r1|]; [|done]. simpl.
  by destruct (referenced ents p2).
Qed.

(** Pairs that refer to stored records are resolved one by one. *)
Lemma referenced_ok (ents : list E) (pairs : list (V * nat)) :
  Forall (fun p => p.2 < length ents) pairs ->
  exists res, referenced ents pairs = Ok res
    /\ Forall2 (fun p e => ents !! p.2 = Some e) pairs res.
Proof.
  induction 1 as [|[k i] pairs Hi _ (res & Hres & Hall)].
  { exists []. by split; [|constructor]. }
  simpl in Hi. destruct (lookup_lt_is_Some_2 ents i Hi) as [e He].
  exists (e :: res). simpl. rewrite He, Hres. by split; [|constructor].
Qed.

(** With one registry throughout, the records referenced by the expected
    pairs whose key satisfies [p] are the stored records whose key
    satisfies [p], in stored order. *)
Lemma referenced_index_pairs convs f (p : V -> bool) (rest : list E) :
  forall pre : list E,
    referenced (pre ++ rest)
      (filter (fun y => p y.1 = true)
         (index_pairs 1 f (length pre) ((fun e => (convs, e)) <$> rest)))
    = Ok (with_key convs f p rest).
Proof.
  induction rest as [|e rest IH]; intros pre; [done|].
  rewrite fmap_cons. cbn [index_pairs]. rewrite filter_app, referenced_app.
  pose proof (IH (pre ++ [e])) as IH'.
  rewrite <- app_assoc, length_app, Nat.add_1_r in IH'. simpl in IH'.
  rewrite IH'. unfold with_key. rewrite filter_cons.
  unfold step_pairs, key_satisfies. simpl.
  destruct (sortable_value convs e f) as [k|err]; simpl.
  - rewrite filter_cons, filter_nil. simpl.
    destruct (p k); simpl; repeat case_decide; try done.
    by rewrite list_lookup_middle.
  - done.
Qed.

Lemma index_pairs_elem convs f (ents : list E) (k : V) (i : nat) :
  forall pos,
    (k, i) ∈ index_pairs 1 f pos ((fun e => (convs, e)) <$> ents)
    <-> pos <= i /\ exists e, ents !! (i - pos) = Some e
                     /\ sortable_value convs e f = Ok k.
Proof.
  induction ents as [|e ents IH]; intros pos; simpl.
  { split; [by inversion 1|]. by intros (_ & e & ? & _). }
  rewrite elem_of_app, IH. unfold step_pairs. simpl. split.
  - intros [Hhere|(Hpos & e' & He' & Hk)].
    + destruct (sortable_value convs e f) as [k'|] eqn:Hk; [|by inversion Hhere].
      apply list_elem_of_singleton in Hhere as [= -> ->].
      split; [done|]. exists e. by rewrite Nat.sub_diag.
    + split; [lia|]. exists e'. split; [|done].
      by replace (i - pos) with (S (i - S pos)) by lia.
  - intros (Hpos & e' & He' & Hk).
    destruct (decide (i = pos)) as [->|Hne].
    + left. rewrite Nat.sub_diag in He'. injection He' as ->.
      rewrite Hk. by apply list_elem_of_singleton.
    + right. split; [lia|]. exists e'. split; [|done].
      by replace (i - pos) with (S (i - S pos)) in He' by lia.
Qed.

(** Listed once, a field has an index without repeated pairs, so the
    index is strictly sorted. *)
Lemma index_pairs_by_position convs f (ents : list E) :
  forall pos,
    StronglySorted (fun x y : V * nat => x.2 < y.2)
      (index_pairs 1 f pos ((fun e => (convs, e)) <$> ents)).
Proof.
  induction ents as [|e ents IH]; intros pos; simpl; [constructor|].
  apply StronglySorted_app_2; [| |by apply IH].
  - intros x y Hx Hy.
    pose proof (step_pairs_position 1 f pos (convs, e)) as Hhere.
    pose proof (index_pairs_position 1 f ((fun e => (convs, e)) <$> ents)
                  (S pos)) as Hlater.
    rewrite Forall_forall in Hhere, Hlater. rewrite (Hhere x Hx).
    specialize (Hlater y Hy). lia.
  - unfold step_pairs. destruct (sortable_value _ _ _); repeat constructor.
Qed.

Lemma strictly_sorted (l l' : list (V * nat)) :
  StronglySorted pair_le l ->
  l ≡ₚ l' -> StronglySorted (fun x y : V * nat => x.2 < y.2) l' ->
  StronglySorted pair_lt l.
Proof.
  intros Hs Hperm Hpos.
  assert (NoDup l) as Hnd.
  { rewrite Hperm. clear -Hpos. induction Hpos as [|x l' _ IH Hx].
    - constructor.
    - constructor; [|done]. intros Hin. rewrite Forall_forall in Hx.
      specialize (Hx x Hin). lia. }
  clear -Hs Hnd H0. induction Hs as [|x l _ IH Hx]; [constructor|].
  apply NoDup_cons in Hnd as [Hx' Hnd]. constructor; [by apply IH|].
  apply Forall_forall. intros y Hy. rewrite Forall_forall in Hx.
  specialize (Hx y Hy). destruct Hx as [Hlt|[Heq Hle]]; [by left|].
  right. split; [done|]. destruct (decide (x.2 = y.2)) as [Hpos|]; [|lia].
  destruct x, y; simpl in *; subst. done.
Qed.
End FindFacts.

Section FindBy.
Context {V : Type} `{PyOrder V} {E : Type} `{Attributes E V}.

Lemma fmap_under_snd (convs : gmap string (V -> result V)) (ents : list E) :
  ((fun e => (convs, e)) <$> ents).*2 = ents.
Proof. rewrite <- list_fmap_compose. apply list_fmap_id. Qed.

Lemma StronglySorted_on {A} (R R' : relation A) (Q : A -> Prop) (l : list A) :
  StronglySorted R l -> Forall Q l ->
  (forall x y, Q x -> Q y -> R x y -> R' x y) ->
  StronglySorted R' l.
Proof.
  intros Hs HQ Himpl. induction Hs as [|x l _ IH Hx]; [constructor|].
  apply Forall_cons in HQ as [Hqx HQ]. constructor; [by apply IH|].
  rewrite Forall_forall in Hx, HQ |- *. intros y Hy. apply Himpl; auto.
Qed.

(** [find_by] with both bounds converted, on an instance filled by
    appends under [convs]: the referenced records of the pairs of the
    index whose key lies between the bounds. *)
Lemma find_by_sorted (fields : list string) convs (ents : list E)
    (self : LogContainer V E) (field : string) (lo hi : V) :
  run_appends (LogContainer_init fields) ((fun e => (convs, e)) <$> ents)
    = (self, Ok tt) ->
  field ∈ fields ->
  exists bucket,
    _buckets self !! field = Some bucket
    /\ _entries self = ents
    /\ StronglySorted pair_le bucket
    /\ bucket ≡ₚ index_pairs (occurrences field fields) field 0
                   ((fun e => (convs, e)) <$> ents)
    /\ find_slice self bucket lo hi
       = filter (fun y => py_le lo y.1 /\ py_le y.1 hi) bucket.
Proof.
  intros Hrun Hfield.
  pose proof (run_appends_invariant fields _ [] _ _
                (init_invariant fields) Hrun) as (_ & Hents & Hidx).
  simpl in Hents, Hidx. rewrite fmap_under_snd in Hents.
  destruct (proj1 (Hidx field) Hfield) as (bucket & Hlook & Hsorted & Hperm).
  exists bucket. repeat split; try done.
  apply find_slice_filter; [done|]. rewrite Hperm.
  eapply Forall_impl; [apply index_pairs_position|]. simpl.
  intros p. rewrite Hents, length_fmap. lia.
Qed.
End FindBy.

(** C3 (as amended). Take an instance filled by appends that all
    returned, under the registry [convs] that is also in force at the
    query, and a searchable field listed once at construction.
    - With a truthy [value_to], [find_by] returns the records at the
      positions of a list of pairs that is strictly ascending by sort key
      and then position, and that holds exactly the (key, position) of
      the records whose sort key lies in the closed interval of the
      converted bounds; if the converted upper bound is below the lower
      one the result is empty.
    - With [value_to] omitted or falsy, [find_by] returns the records
      whose sort key equals the converted [value], in stored order, each
      stored record at most once. *)
Theorem find_by_range_and_point {V : Type} `{PyOrder V} {E : Type}
    `{Attributes E V} (fields : list string)
    (convs : gmap string (V -> result V)) (ents : list E)
    (self : LogContainer V E) (field : string) (value lo : V) :
  run_appends (LogContainer_init fields) ((fun e => (convs, e)) <$> ents)
    = (self, Ok tt) ->
  occurrences field fields = 1 ->
  _marshall_value convs field value = Ok lo ->
  (forall value_to hi,
     py_truth value_to = true ->
     _marshall_value convs field value_to = Ok hi ->
     exists pairs res,
       find_by convs self field value value_to = Ok res
       /\ Forall2 (fun p e => entries self !! p.2 = Some e) pairs res
       /\ StronglySorted pair_lt pairs
       /\ (forall k i,
             (k, i) ∈ pairs <->
             exists e, entries self !! i = Some e
               /\ sortable_value convs e field = Ok k
               /\ py_le lo k /\ py_le k hi)
       /\ (py_lt hi lo = true -> res = []))
  /\ (forall value_to,
        py_truth value_to = false ->
        find_by convs self field value value_to
        = Ok (with_key convs field (py_eq lo) (entries self))).
Proof.
  intros Hrun Hocc Hlo.
  assert (field ∈ fields) as Hfield by (apply occurrences_pos; lia).
  split.
  - intros value_to hi Htruth Hhi.
    destruct (find_by_sorted fields convs ents self field lo hi Hrun Hfield)
      as (bucket & Hlook & Hents & Hsorted & Hperm & Hslice).
    rewrite Hocc in Hperm.
    set (pairs := filter (fun y : V * nat => py_le lo y.1 /\ py_le y.1 hi)
                    bucket).
    assert (forall k i, (k, i) ∈ pairs <->
              exists e, ents !! i = Some e
                /\ sortable_value convs e field = Ok k
                /\ py_le lo k /\ py_le k hi) as Hmem.
    { intros k i. unfold pairs.
      rewrite list_elem_of_filter, Hperm, index_pairs_elem, Nat.sub_0_r.
      simpl. split.
      - intros ([? ?] & _ & e & ? & ?). by exists e.
      - intros (e & ? & ? & ? & ?). repeat split; [done..|lia|by exists e]. }
    destruct (referenced_ok ents pairs) as (res & Hres & Hall).
    { apply Forall_forall. intros [k i] (e & He & _)%Hmem.
      by apply lookup_lt_Some in He. }
    exists pairs, res. unfold entries. rewrite Hents.
    repeat split; [|done| |apply Hmem|apply Hmem|].
    + unfold find_by. rewrite Hlo. simpl. rewrite Htruth, Hhi. simpl.
      rewrite Hlook. simpl. by rewrite Hslice, Hents.
    + apply (strictly_sorted _
               (filter (fun y : V * nat => py_le lo y.1 /\ py_le y.1 hi)
                  (index_pairs 1 field 0 ((fun e => (convs, e)) <$> ents)))).
      * by apply StronglySorted_filter.
      * unfold pairs. by rewrite Hperm.
      * apply StronglySorted_filter, index_pairs_by_position.
    + intros Hrev. destruct pairs as [|[k i] pairs'] eqn:Hp.
      { by inversion Hall. }
      assert ((k, i) ∈ (k, i) :: pairs') as Hin by left.
      apply Hmem in Hin as (_ & _ & _ & Hlok & Hkhi).
      pose proof (py_le_trans _ _ _ Hlok Hkhi) as Hle.
      unfold py_le in Hle. congruence.
  - intros value_to Hfalse.
    destruct (find_by_sorted fields convs ents self field lo lo Hrun Hfield)
      as (bucket & Hlook & Hents & Hsorted & Hperm & Hslice).
    rewrite Hocc in Hperm.
    unfold find_by. rewrite Hlo. simpl. rewrite Hfalse. simpl.
    rewrite Hlook. simpl. rewrite Hslice. unfold entries. rewrite Hents.
    rewrite <- (referenced_index_pairs convs field (py_eq lo) ents []).
    simpl. f_equal.
    assert (forall y : V * nat,
              py_le lo y.1 /\ py_le y.1 lo <-> py_eq lo y.1 = true) as Hiff.
    { intros y. rewrite py_eq_spec. split.
      - intros [? ?]. by apply py_le_antisym.
      - intros <-. split; apply py_le_refl. }
    apply (StronglySorted_unique pair_le).
    + by apply StronglySorted_filter.
    + apply (StronglySorted_on (fun x y : V * nat => x.2 < y.2) pair_le
               (fun y => py_eq lo y.1 = true)).
      * apply StronglySorted_filter, index_pairs_by_position.
      * apply Forall_forall. by intros y [? _]%list_elem_of_filter.
      * intros x y Hx%py_eq_spec Hy%py_eq_spec Hxy. right.
        split; [congruence|lia].
    + rewrite Hperm. by rewrite (list_filter_iff _ _ _ Hiff).
Qed.

Lemma find_by_range_and_point_witness :
  (exists pairs res,
     find_by no_converters load_container "a" (VInt 2) (VInt 3) = Ok res
     /\ Forall2 (fun p e => entries load_container !! p.2 = Some e) pairs res
     /\ StronglySorted pair_lt pairs
     /\ (forall k i,
           (k, i) ∈ pairs <->
           exists e, entries load_container !! i = Some e
             /\ sortable_value no_converters e "a" = Ok k
             /\ py_le (VInt 2) k /\ py_le k (VInt 3))
     /\ (py_lt (VInt 3) (VInt 2) = true -> res = []))
  /\ find_by no_converters load_container "a" (VInt 2) VNone
     = Ok (with_key no_converters "a" (py_eq (VInt 2))
             (entries load_container)).
Proof.
  destruct (find_by_range_and_point ["a"] no_converters test_entries
              load_container "a" (VInt 2) (VInt 2)) as [Hrange Hpoint];
    [vm_compute; reflexivity..|].
  split.
  - apply (Hrange (VInt 3) (VInt 3)); reflexivity.
  - apply (Hpoint VNone). reflexivity.
Defined.

(** C3 as stated fails in two ways. An upper bound of 0 is dropped: the
    record with key 0 lies in [-5, 0] and is not returned. And a field
    listed twice returns every match twice. *)
Lemma find_by_range_fails :
  (exists self : LogContainer pyval pyobj,
     run_appends (LogContainer_init ["a"])
       (under no_converters
          [Entry (VInt (-5)) (VStr "x"); Entry (VInt 0) (VStr "y")])
       = (self, Ok tt)
     /\ py_le (VInt (-5)) (VInt 0)
     /\ find_by no_converters self "a" (VInt (-5)) (VInt 0)
        = Ok [Entry (VInt (-5)) (VStr "x")]
     /\ with_key no_converters "a"
          (fun k => negb (py_lt k (VInt (-5))) && negb (py_lt (VInt 0) k))
          (entries self)
        = [Entry (VInt (-5)) (VStr "x"); Entry (VInt 0) (VStr "y")])
  /\ (exists self : LogContainer pyval pyobj,
        run_appends (LogContainer_init ["a"; "a"])
          (under no_converters [Entry (VInt 1) (VStr "+")]) = (self, Ok tt)
        /\ find_by no_converters self "a" (VInt 1) VNone
           = Ok [Entry (VInt 1) (VStr "+"); Entry (VInt 1) (VStr "+")]).
Proof. split; eexists; vm_compute; repeat split. Qed.

(** ** Exceptions of [append] and [find_by] *)

Section Raising.
Context {V : Type} `{PyOrder V} {E : Type} `{Attributes E V}.

(** The keys of [_buckets] are the searchable fields, in every state. *)
Lemma reachable_dom (fields : list string) (self : LogContainer V E) :
  reachable fields self ->
  _searchable_fields self = fields
  /\ forall g, is_Some (_buckets self !! g) <-> g ∈ fields.
Proof.
  induction 1 as [|self convs e _ [IHf IHb]].
  - split; [done|]. intros g. rewrite init_lookup.
    destruct (decide (g ∈ fields)) as [Hg|Hg].
    + split; [done|]. intros _. by eexists.
    + split; [|done]. by intros [? ?].
  - unfold append. destruct (append_loop _ _ _ _ _) as [b' r] eqn:Hloop.
    simpl. split; [done|]. intros g.
    by rewrite (append_loop_dom _ _ _ _ _ _ _ Hloop g).
Qed.

Lemma run_appends_reachable (fields : list string) steps :
  forall self : LogContainer V E,
    reachable fields self -> reachable fields (run_appends self steps).1.
Proof.
  induction steps as [|[convs e] steps IH]; intros self Hreach; [done|].
  simpl. pose proof (reachable_append fields self convs e Hreach) as Hnext.
  destruct (append convs self e) as [self' [[]|err]]; [|done].
  by apply IH.
Qed.

(** The loop leaves the index of a field it does not visit alone. *)
Lemma append_loop_other convs (e : E) n fields (g : string) :
  g ∉ fields ->
  forall buckets buckets' (r : result unit),
    append_loop convs e n fields buckets = (buckets', r) ->
    buckets' !! g = buckets !! g.
Proof.
  induction fields as [|f fields IH]; intros Hg buckets buckets' r Hrun;
    simpl in Hrun.
  { by injection Hrun as <- _. }
  apply not_elem_of_cons in Hg as [Hne Hg].
  destruct (sortable_value convs e f) as [k|err].
  2: { by destruct err; injection Hrun as <- _. }
  destruct (buckets !! f) as [bf|] eqn:Hbf.
  2: { by injection Hrun as <- _. }
  rewrite (IH Hg _ _ _ Hrun). by rewrite lookup_insert_ne.
Qed.

(** The loop stops at the first field whose sort key cannot be computed;
    what it did for the fields before stays done. *)
Lemma append_loop_raises convs (e : E) n (f : string) (post : list string)
    (err : exn) :
  sortable_value convs e f = Raise err ->
  forall pre buckets,
    (forall g, g ∈ pre -> is_Some (buckets !! g)) ->
    (forall g, g ∈ pre -> exists k, sortable_value convs e g = Ok k) ->
    exists buckets',
      append_loop convs e n pre buckets = (buckets', Ok tt)
      /\ append_loop convs e n (pre ++ f :: post) buckets
         = (buckets',
            Raise (match err with
                   | AttributeError => ValueError_missing_field f
                   | _ => err
                   end)).
Proof.
  intros Hf. induction pre as [|g pre IH]; intros buckets Hdom Hkeys; simpl.
  { exists buckets. rewrite Hf. by destruct err. }
  destruct (Hkeys g) as [k Hk]; [by left|]. rewrite Hk.
  destruct (Hdom g) as [b Hb]; [by left|]. rewrite Hb.
  apply IH.
  - intros g' Hg'. destruct (decide (g = g')) as [->|Hne].
    + rewrite lookup_insert_eq. by eexists.
    + rewrite lookup_insert_ne by done. apply Hdom. by right.
  - intros g' Hg'. apply Hkeys. by right.
Qed.
End Raising.

(** C1 (as amended). When the first searchable field the record lacks is
    [missing], and the fields listed before it are present and convert,
    [append] raises the [ValueError] of line 104 for [missing]. By then
    the record has been stored, so [entries] is one longer; the indices
    of the fields listed before [missing] have received its pair, once
    per listing; every other index is as it was. *)
Theorem append_missing_field {V : Type} `{PyOrder V} {E : Type}
    `{Attributes E V} (pre post : list string) (missing : string)
    (convs : gmap string (V -> result V)) (self : LogContainer V E)
    (entry : E) :
  reachable (pre ++ missing :: post) self ->
  getattr entry missing = None ->
  (forall g, g ∈ pre -> exists k, sortable_value convs entry g = Ok k) ->
  (append convs self entry).2 = Raise (ValueError_missing_field missing)
  /\ entries (append convs self entry).1 = entries self ++ [entry]
  /\ length (entries (append convs self entry).1) = S (length (entries self))
  /\ (forall g, g ∉ pre ->
        _buckets (append convs self entry).1 !! g = _buckets self !! g)
  /\ (forall g, g ∈ pre ->
        exists k bucket bucket',
          sortable_value convs entry g = Ok k
          /\ _buckets self !! g = Some bucket
          /\ _buckets (append convs self entry).1 !! g = Some bucket'
          /\ bucket' ≡ₚ replicate (occurrences g pre)
                          (k, length (entries self)) ++ bucket).
Proof.
  intros Hreach Hmissing Hkeys.
  destruct (reachable_dom _ _ Hreach) as [Hfields Hdom].
  assert (sortable_value convs entry missing = Raise AttributeError) as Hraise.
  { unfold sortable_value. by rewrite Hmissing. }
  destruct (append_loop_raises convs entry (length (_entries self ++ [entry]) - 1)
              missing post _ Hraise pre (_buckets self))
    as (buckets' & Hpre & Hall); [|done|].
  { intros g Hg. apply Hdom, elem_of_app. by left. }
  unfold append. rewrite Hfields, Hall. simpl.
  repeat split.
  - unfold entries. rewrite length_app. simpl. lia.
  - intros g Hg. by apply (append_loop_other _ _ _ _ _ Hg _ _ _ Hpre).
  - intros g Hg. destruct (Hkeys g Hg) as [k Hk].
    apply append_loop_ok in Hpre as [_ Hb]. specialize (Hb g).
    destruct (_buckets self !! g) as [b|] eqn:Hlook.
    2: { destruct (proj2 (Hdom g)) as [? ?]; [|congruence].
         apply elem_of_app. by left. }
    destruct Hb as (b' & Hb' & _ & Hp). exists k, b, b'.
    repeat split; [done..|].
    rewrite Hp. unfold step_pairs. simpl. rewrite Hk.
    replace (length (_entries self ++ [entry]) - 1)
      with (length (entries self)); [done|].
    unfold entries. rewrite length_app. simpl. lia.
Qed.

Lemma append_missing_field_witness :
  getattr (Entry (VInt 1) (VStr "+")) "c" = None
  /\ (append no_converters (LogContainer_init ["a"; "c"])
        (Entry (VInt 1) (VStr "+"))).2
     = Raise (ValueError_missing_field "c")
  /\ length (entries (append no_converters (LogContainer_init ["a"; "c"])
                        (Entry (VInt 1) (VStr "+"))).1)
     = S (length (entries (LogContainer_init (V:=pyval) (E:=pyobj) ["a"; "c"]))).
Proof.
  split; [reflexivity|].
  destruct (append_missing_field ["a"] [] "c" no_converters
              (LogContainer_init ["a"; "c"]) (Entry (VInt 1) (VStr "+")))
    as (Hraise & _ & Hlen & _).
  - apply reachable_init.
  - reflexivity.
  - intros g Hg. apply list_elem_of_singleton in Hg as ->.
    exists (VInt 1). reflexivity.
  - split; [exact Hraise | exact Hlen].
Defined.

(** C1 as stated fails: after the [ValueError] the record is in
    [entries], and the index of the field listed before the missing one
    holds its pair. *)
Lemma failed_append_is_kept :
  getattr (Entry (VInt 1) (VStr "+")) "c" = None
  /\ (append no_converters (LogContainer_init ["a"; "c"])
        (Entry (VInt 1) (VStr "+"))).2
     = Raise (ValueError_missing_field "c")
  /\ length (entries (LogContainer_init (V:=pyval) (E:=pyobj) ["a"; "c"])) = 0
  /\ length (entries (append no_converters (LogContainer_init ["a"; "c"])
                        (Entry (VInt 1) (VStr "+"))).1) = 1
  /\ _buckets (LogContainer_init (V:=pyval) (E:=pyobj) ["a"; "c"]) !! "a"
     = Some []
  /\ _buckets (append no_converters (LogContainer_init ["a"; "c"])
                 (Entry (VInt 1) (VStr "+"))).1 !! "a"
     = Some [(VInt 1, 0)].
Proof. vm_compute. repeat split. Qed.

(** [find_by] on a field name outside the searchable fields, in every
    state: it never returns a result. The exception is the [ValueError]
    of line 132 whenever the query values convert without raising, in
    particular whenever no converter is registered under that name;
    otherwise it is the exception the converter raised, because the
    values are converted before the index is looked up. [find_by]
    assigns to nothing: the instance is the one it was called on. *)
Theorem find_by_unknown_field {V : Type} `{PyOrder V} {E : Type}
    `{Attributes E V} (fields : list string)
    (convs : gmap string (V -> result V)) (self : LogContainer V E)
    (field : string) (value value_to : V) :
  reachable fields self ->
  field ∉ fields ->
  (forall res, find_by convs self field value value_to <> Ok res)
  /\ (convs !! field = None ->
      find_by convs self field value value_to
      = Raise (ValueError_unknown_field field))
  /\ (forall lo,
        _marshall_value convs field value = Ok lo ->
        (py_truth value_to = true ->
         exists hi, _marshall_value convs field value_to = Ok hi) ->
        find_by convs self field value value_to
        = Raise (ValueError_unknown_field field))
  /\ (forall err,
        find_by convs self field value value_to = Raise err ->
        err = ValueError_unknown_field field
        \/ _marshall_value convs field value = Raise err
        \/ _marshall_value convs field value_to = Raise err).
Proof.
  intros Hreach Hfield.
  destruct (reachable_dom _ _ Hreach) as [_ Hdom].
  assert (_buckets self !! field = None) as Hnone.
  { destruct (_buckets self !! field) eqn:Hl; [|done].
    destruct Hfield. apply Hdom. by eexists. }
  assert (forall lo,
            _marshall_value convs field value = Ok lo ->
            (py_truth value_to = true ->
             exists hi, _marshall_value convs field value_to = Ok hi) ->
            find_by convs self field value value_to
            = Raise (ValueError_unknown_field field)) as Hconv.
  { intros lo Hlo Hhi. unfold find_by. rewrite Hlo. simpl.
    destruct (py_truth value_to).
    - destruct Hhi as [hi ->]; [done|]. simpl. by rewrite Hnone.
    - simpl. by rewrite Hnone. }
  repeat split.
  - intros res. unfold find_by.
    destruct (_marshall_value convs field value) as [lo|]; [|done]. simpl.
    destruct (py_truth value_to).
    + destruct (_marshall_value convs field value_to) as [hi|]; [|done].
      simpl. by rewrite Hnone.
    + simpl. by rewrite Hnone.
  - intros Hno. apply (Hconv value).
    + unfold _marshall_value. by rewrite Hno.
    + intros _. exists value_to. unfold _marshall_value. by rewrite Hno.
  - exact Hconv.
  - intros err. unfold find_by.
    destruct (_marshall_value convs field value) as [lo|e1]; simpl.
    2: { intros [= ->]. by right; left. }
    destruct (py_truth value_to).
    + destruct (_marshall_value convs field value_to) as [hi|e2]; simpl.
      * rewrite Hnone. simpl. intros [= <-]. by left.
      * intros [= ->]. by right; right.
    + simpl. rewrite Hnone. simpl. intros [= <-]. by left.
Qed.

Lemma find_by_unknown_field_witness :
  ("b" ∉ ["a"])
  /\ find_by no_converters load_container "b" (VInt 1) VNone
     = Raise (ValueError_unknown_field "b").
Proof.
  split; [by intros ?%list_elem_of_singleton|].
  destruct (find_by_unknown_field ["a"] no_converters load_container "b"
              (VInt 1) VNone) as (_ & Hraise & _).
  - apply run_appends_reachable, reachable_init.
  - by intros ?%list_elem_of_singleton.
  - apply Hraise. reflexivity.
Defined.

(** C9 (the code departs from it). [find_by] on a name that is not
    searchable is documented to raise the [ValueError] of line 132. Once
    a [CustomLog()] has filled the registry of the class, a plain
    [LogContainer] finds a converter under [sessionid] and [loglevel],
    runs it before it looks the index up, and raises what the converter
    raises: [TypeError] for the value 5, the severity error for INFO. *)
Lemma converter_raises_before_lookup :
  ("sessionid" ∉ ["a"]) /\ ("loglevel" ∉ ["a"])
  /\ call_find_by (new_LogContainer ["a"] (new_CustomLog fresh_interpreter).1).2
       "sessionid" (VInt 5) VNone
       (new_LogContainer ["a"] (new_CustomLog fresh_interpreter).1).1
     = Raise TypeError
  /\ call_find_by (new_LogContainer ["a"] (new_CustomLog fresh_interpreter).1).2
       "loglevel" (VStr "INFO") VNone
       (new_LogContainer ["a"] (new_CustomLog fresh_interpreter).1).1
     = Raise ValueError_unknown_loglevel.
Proof.
  repeat split; try (by intros ?%list_elem_of_singleton); vm_compute; done.
Qed.

(** C10. A falsy [value_to] is replaced by [value]: the call is the
    point query, whatever the instance and the field. *)
Theorem falsy_value_to_is_point_query {V : Type} `{PyOrder V} {E : Type}
    `{Attributes E V} (convs : gmap string (V -> result V))
    (self : LogContainer V E) (field_name : string) (value value_to : V) :
  py_truth value_to = false ->
  find_by convs self field_name value value_to
  = find_by convs self field_name value py_None.
Proof.
  intros Hfalse. unfold find_by. by rewrite Hfalse, py_truth_None.
Qed.

Lemma falsy_value_to_is_point_query_witness :
  py_truth (VInt 0) = false /\ py_truth (VStr EmptyString) = false
  /\ py_truth VNone = false
  /\ find_by no_converters
       (run_appends (LogContainer_init ["a"])
          (under no_converters
             [Entry (VInt (-5)) (VStr "x"); Entry (VInt 0) (VStr "y")])).1
       "a" (VInt (-5)) (VInt 0)
     = find_by no_converters
         (run_appends (LogContainer_init ["a"])
            (under no_converters
               [Entry (VInt (-5)) (VStr "x"); Entry (VInt 0) (VStr "y")])).1
         "a" (VInt (-5)) py_None
  /\ find_by no_converters
       (run_appends (LogContainer_init ["a"])
          (under no_converters
             [Entry (VInt (-5)) (VStr "x"); Entry (VInt 0) (VStr "y")])).1
       "a" (VInt (-5)) (VInt 0)
     = Ok [Entry (VInt (-5)) (VStr "x")].
Proof.
  split; [reflexivity|]. split; [reflexivity|]. split; [reflexivity|].
  split; [|reflexivity].
  apply falsy_value_to_is_point_query. reflexivity.
Defined.

(** C2 (the code departs from it). The registry is the dictionary of the
    class, and [CustomLog.__init__] writes into it. A [LogContainer]
    built and filled before answers a query; after a [CustomLog()] is
    built, the same instance, itself untouched, converts the query value
    with the newly registered converter and finds nothing. The other
    operations leave the registry alone, and [append] on one instance
    leaves the other instances alone. *)
Theorem later_CustomLog_changes_queries :
  let record := NamedTuple [("sessionid", VStr "SID:1")] in
  let st1 := (new_LogContainer ["sessionid"] fresh_interpreter).1 in
  let a := (new_LogContainer ["sessionid"] fresh_interpreter).2 in
  let st2 := (call_append a record st1).1 in
  let st3 := (new_CustomLog st2).1 in
  call_find_by a "sessionid" (VStr "SID:1") VNone st2 = Ok [record]
  /\ call_find_by a "sessionid" (VStr "SID:1") VNone st3 = Ok []
  /\ instances st3 !! a = instances st2 !! a
  /\ LogContainer_converters st2 !! "sessionid" = None
  /\ is_Some (LogContainer_converters st3 !! "sessionid")
  /\ (forall st fields,
        LogContainer_converters (new_LogContainer fields st).1
        = LogContainer_converters st)
  /\ (forall st ref entry,
        LogContainer_converters (call_append ref entry st).1
        = LogContainer_converters st)
  /\ (forall st ref text,
        LogContainer_converters (call_load ref text st).1
        = LogContainer_converters st)
  /\ (forall st ref other entry,
        ref <> other ->
        instances (call_append ref entry st).1 !! other
        = instances st !! other).
Proof.
  repeat split.
  - vm_compute. by eexists.
  - intros st ref entry. unfold call_append.
    destruct (instances st !! ref); [|done]. by destruct (append _ _ _).
  - intros st ref text. unfold call_load.
    destruct (instances st !! ref); [|done]. by destruct (load _ _ _).
  - intros st ref other entry Hne. unfold call_append.
    destruct (instances st !! ref); [|done]. destruct (append _ _ _). simpl.
    by apply list_lookup_insert_ne.
Qed.

(** ** [CustomLog]: converters *)

Lemma CustomLog_install_lookup (convs : gmap string (pyval -> result pyval)) :
  CustomLog_install convs !! "date" = Some _datetime_converter
  /\ CustomLog_install convs !! "loglevel" = Some _loglevel_converter
  /\ CustomLog_install convs !! "sessionid" = Some _xid_converter
  /\ CustomLog_install convs !! "businessid" = Some _xid_converter.
Proof.
  unfold CustomLog_install. repeat split.
  - do 3 rewrite lookup_insert_ne by done. by rewrite lookup_insert_eq.
  - do 2 rewrite lookup_insert_ne by done. by rewrite lookup_insert_eq.
  - rewrite lookup_insert_ne by done. by rewrite lookup_insert_eq.
  - by rewrite lookup_insert_eq.
Qed.

Lemma unknown_loglevel (token : pyval) :
  token <> VStr "ERROR" -> token <> VStr "WARN" -> token <> VStr "DEBUG" ->
  _loglevel_converter token = Raise ValueError_unknown_loglevel.
Proof.
  intros H1 H2 H3. unfold _loglevel_converter.
  assert (forall a, a <> token -> pyval_eq a token = false) as Hne.
  { intros a Ha. exact (proj2 (py_eq_false (V:=pyval) a token) Ha). }
  by rewrite !Hne by congruence.
Qed.

(** C8. ERROR, WARN and DEBUG convert to 2, 4 and 8, so ERROR sorts
    before WARN before DEBUG, while the tokens themselves sort DEBUG,
    ERROR, WARN. Any other value makes the converter raise [ValueError],
    and that exception is what [find_by] on [loglevel] and [append] of a
    record with that severity raise in a [CustomLog]: the [except] of
    [append] catches [AttributeError] only. *)
Theorem loglevel_ranks_and_unknown_tokens :
  (_loglevel_converter (VStr "ERROR") = Ok (VInt 2)
   /\ _loglevel_converter (VStr "WARN") = Ok (VInt 4)
   /\ _loglevel_converter (VStr "DEBUG") = Ok (VInt 8))
  /\ (py_lt (VInt 2) (VInt 4) = true /\ py_lt (VInt 4) (VInt 8) = true)
  /\ (py_lt (VStr "DEBUG") (VStr "ERROR") = true
      /\ py_lt (VStr "ERROR") (VStr "WARN") = true)
  /\ forall token : pyval,
       token <> VStr "ERROR" -> token <> VStr "WARN" ->
       token <> VStr "DEBUG" ->
       _loglevel_converter token = Raise ValueError_unknown_loglevel
       /\ (forall convs (self : LogContainer pyval pyobj) value_to,
             find_by (CustomLog_install convs) self "loglevel" token value_to
             = Raise ValueError_unknown_loglevel)
       /\ (forall convs (self : LogContainer pyval pyobj) entry d,
             reachable CustomLog_searchable_fields self ->
             getattr entry "date" = Some (VDate d) ->
             getattr entry "loglevel" = Some token ->
             (append (CustomLog_install convs) self entry).2
             = Raise ValueError_unknown_loglevel).
Proof.
  split; [by repeat split|]. split; [by split|]. split; [by split|].
  intros token H1 H2 H3. split; [by apply unknown_loglevel|]. split.
  - intros convs self value_to.
    destruct (CustomLog_install_lookup convs) as (_ & Hl & _).
    unfold find_by, _marshall_value. rewrite Hl.
    by rewrite (unknown_loglevel token H1 H2 H3).
  - intros convs self entry d Hreach Hdate Hlevel.
    destruct (CustomLog_install_lookup convs) as (Hd & Hl & _).
    destruct (reachable_dom _ _ Hreach) as [Hfields Hdom].
    destruct (append_loop_raises (CustomLog_install convs) entry
                (length (_entries self ++ [entry]) - 1) "loglevel"
                ["sessionid"; "businessid"] ValueError_unknown_loglevel)
      with (pre := ["date"]) (buckets := _buckets self)
      as (buckets' & _ & Hall).
    + unfold sortable_value, _marshall_value. rewrite Hlevel, Hl.
      exact (unknown_loglevel token H1 H2 H3).
    + intros g ->%list_elem_of_singleton. apply Hdom. by left.
    + intros g ->%list_elem_of_singleton.
      unfold sortable_value, _marshall_value. rewrite Hdate, Hd. by eexists.
    + unfold append. rewrite Hfields.
      change CustomLog_searchable_fields
        with (["date"] ++ "loglevel" :: ["sessionid"; "businessid"]).
      by rewrite Hall.
Qed.

Lemma loglevel_ranks_and_unknown_tokens_witness :
  VStr "INFO" <> VStr "ERROR"
  /\ _loglevel_converter (VStr "INFO") = Raise ValueError_unknown_loglevel
  /\ find_by (CustomLog_init no_converters).1
       (CustomLog_init no_converters).2 "loglevel"
       (VStr "INFO") VNone
     = Raise ValueError_unknown_loglevel
  /\ (append (CustomLog_init no_converters).1
        (CustomLog_init no_converters).2
        (LogEntryObj {| date := epoch; loglevel := "INFO";
                        sessionid := "SID:1"; businessid := "BID:2";
                        requestid := "RID:3"; message := "'A'" |})).2
     = Raise ValueError_unknown_loglevel.
Proof.
  split; [discriminate|].
  destruct loglevel_ranks_and_unknown_tokens as (_ & _ & _ & Hunknown).
  destruct (Hunknown (VStr "INFO")) as (Hconv & Hfind & Happend);
    [discriminate..|].
  split; [exact Hconv|]. split; [apply Hfind|].
  apply (Happend _ _ _ epoch); [apply reachable_init|reflexivity..].
Defined.

(** ** [CustomLog.load] *)

Lemma append_entries {V : Type} `{PyValue V} {E : Type} `{Attributes E V}
    (convs : gmap string (V -> result V)) (self : LogContainer V E) (e : E) :
  entries (append convs self e).1 = entries self ++ [e].
Proof. unfold append. by destruct (append_loop _ _ _ _ _). Qed.

Lemma last_char_app (s t : string) :
  str_empty t = false -> last_char (s +:+ t) = last_char t.
Proof.
  intros Ht. induction s as [|c s IH]; [done|].
  simpl. rewrite IH. destruct (s +:+ t) eqn:Hst; [|done].
  destruct s, t; done.
Qed.

Lemma ends_with_boundary_app (s t : string) :
  ends_with_boundary t = true -> ends_with_boundary (s +:+ t) = true.
Proof.
  unfold ends_with_boundary. intros Ht. rewrite last_char_app; [done|].
  by destruct t.
Qed.

(** One line stores at most one record, and only a terminated one. *)
Lemma load_line_entries convs (self : LogContainer pyval pyobj)
    (entry_data : option LogEntry) (line : string) :
  exists added,
    entries (load_line convs self entry_data line).1 = entries self ++ added
    /\ Forall terminated added.
Proof.
  unfold load_line. destruct (_entry_re_match line) as [groups|].
  - destruct (strptime (group_date groups)) as [d|err]; simpl.
    2: { exists []. by rewrite app_nil_r. }
    destruct (ends_with_boundary (group_message groups)) eqn:Hend.
    + pose proof (append_entries convs self
                    (LogEntryObj
                       {| date := d;
                          loglevel := group_loglevel groups;
                          sessionid := group_sessionid groups;
                          businessid := group_businessid groups;
                          requestid := group_requestid groups;
                          message := group_message groups |})) as Happ.
      destruct (append _ _ _) as [self' outcome]. simpl in *.
      eexists [_]. split; [exact Happ|]. repeat constructor. by eexists.
    + exists []. by rewrite app_nil_r.
  - destruct entry_data as [pending|]; simpl.
    2: { exists []. by rewrite app_nil_r. }
    destruct (str_empty (rstrip line)
              || negb (ends_with_boundary (rstrip line))) eqn:Hopen; simpl.
    { exists []. by rewrite app_nil_r. }
    apply orb_false_iff in Hopen as [_ Hend%negb_false_iff].
    pose proof (append_entries convs self
                  (LogEntryObj
                     {| date := date pending;
                        loglevel := loglevel pending;
                        sessionid := sessionid pending;
                        businessid := businessid pending;
                        requestid := requestid pending;
                        message := message pending +:+ rstrip line |}))
      as Happ.
    destruct (append _ _ _) as [self' outcome]. simpl in *.
    eexists [_]. split; [exact Happ|]. repeat constructor.
    eexists. split; [done|]. simpl. by apply ends_with_boundary_app.
Qed.

Lemma load_from_entries convs (data : list string) :
  forall (self : LogContainer pyval pyobj) (entry_data : option LogEntry),
    exists added,
      entries (load_from convs self entry_data data).1 = entries self ++ added
      /\ Forall terminated added.
Proof.
  induction data as [|line data IH]; intros self entry_data; simpl.
  { exists []. by rewrite app_nil_r. }
  destruct (load_line_entries convs self entry_data line)
    as (added1 & Hents1 & Hterm1).
  destruct (load_line convs self entry_data line) as [self1 [next|err]];
    simpl in *.
  - destruct (IH self1 next) as (added2 & Hents2 & Hterm2).
    exists (added1 ++ added2). rewrite Hents2, Hents1, app_assoc.
    split; [done|]. by apply Forall_app.
  - by exists added1.
Qed.

(** C5. A line that matches the header pattern is processed as if no
    record were open: the open record is dropped, not stored. When the
    input ends with a record open, [load] returns normally and stores
    nothing more. And whatever the input, every record [load] stores has
    a message closed by the boundary marker. *)
Theorem load_discards_unterminated :
  (forall convs (self : LogContainer pyval pyobj) pending line rest,
     is_Some (_entry_re_match line) ->
     load_line convs self (Some pending) line = load_line convs self None line
     /\ load_from convs self (Some pending) (line :: rest)
        = load_from convs self None (line :: rest))
  /\ (forall convs (self : LogContainer pyval pyobj) pending,
        load_from convs self (Some pending) [] = (self, Ok tt))
  /\ (forall convs (self : LogContainer pyval pyobj) data,
        exists added,
          entries (load convs self data).1 = entries self ++ added
          /\ Forall terminated added).
Proof.
  split; [|split].
  - intros convs self pending line rest [groups Hmatch].
    simpl. unfold load_line. by rewrite Hmatch.
  - done.
  - intros convs self data. apply load_from_entries.
Qed.

Lemma load_discards_unterminated_witness :
  is_Some (_entry_re_match "2012-01-01 00:00:01 DEBUG SID:1 BID:2 RID:3 'A'")
  /\ load_from (CustomLog_init no_converters).1 (CustomLog_init no_converters).2
       (Some {| date := epoch; loglevel := "WARN"; sessionid := "SID:9";
                businessid := "BID:9"; requestid := "RID:9";
                message := "'never closed" |})
       ["2012-01-01 00:00:01 DEBUG SID:1 BID:2 RID:3 'A'"]
     = load_from (CustomLog_init no_converters).1
         (CustomLog_init no_converters).2 None
         ["2012-01-01 00:00:01 DEBUG SID:1 BID:2 RID:3 'A'"].
Proof.
  assert (is_Some (_entry_re_match
                     "2012-01-01 00:00:01 DEBUG SID:1 BID:2 RID:3 'A'"))
    as Hheader by (vm_compute; eauto).
  split; [exact Hheader|].
  destruct load_discards_unterminated as [Hdrop _].
  apply Hdrop. exact Hheader.
Defined.

(** C6. The header line with ['A] and the line [B'] give one record
    whose message is ['A], a newline, [B'], both quotes included. In
    general, while a record is open, a line that is not a header and
    that, stripped of trailing whitespace, is empty or does not end with
    the boundary marker is added unchanged to the message, and the record
    stays open. *)
Theorem multiline_message_reassembled :
  (load (CustomLog_init no_converters).1 (CustomLog_init no_converters).2
     (StringIO_lines
        ("2012-01-01 00:00:00 DEBUG SID:1 BID:2 RID:3 'A"
           +:+ String newline "B'"))).2 = Ok tt
  /\ entries
       (load (CustomLog_init no_converters).1 (CustomLog_init no_converters).2
          (StringIO_lines
             ("2012-01-01 00:00:00 DEBUG SID:1 BID:2 RID:3 'A"
                +:+ String newline "B'"))).1
     = [LogEntryObj
          {| date := {| year := 2012; month := 1; day := 1;
                        hour := 0; minute := 0; second := 0 |};
             loglevel := "DEBUG"; sessionid := "SID:1";
             businessid := "BID:2"; requestid := "RID:3";
             message := "'A" +:+ String newline "B'" |}]
  /\ forall convs (self : LogContainer pyval pyobj) pending line,
       _entry_re_match line = None ->
       str_empty (rstrip line) || negb (ends_with_boundary (rstrip line))
         = true ->
       load_line convs self (Some pending) line
       = (self,
          Ok (Some {| date := date pending;
                      loglevel := loglevel pending;
                      sessionid := sessionid pending;
                      businessid := businessid pending;
                      requestid := requestid pending;
                      message := message pending +:+ line |})).
Proof.
  split; [by vm_compute|]. split; [by vm_compute|].
  intros convs self pending line Hmatch Hopen.
  unfold load_line. by rewrite Hmatch, Hopen.
Qed.

Lemma multiline_message_reassembled_witness :
  _entry_re_match (String newline EmptyString) = None
  /\ load_line (CustomLog_init no_converters).1 (CustomLog_init no_converters).2
       (Some {| date := epoch; loglevel := "DEBUG"; sessionid := "SID:1";
                businessid := "BID:2"; requestid := "RID:3";
                message := "'A" +:+ String newline EmptyString |})
       (String newline EmptyString)
     = ((CustomLog_init no_converters).2,
        Ok (Some {| date := epoch; loglevel := "DEBUG"; sessionid := "SID:1";
                    businessid := "BID:2"; requestid := "RID:3";
                    message := ("'A" +:+ String newline EmptyString)
                                 +:+ String newline EmptyString |})).
Proof.
  split; [reflexivity|].
  destruct multiline_message_reassembled as (_ & _ & Hopen).
  exact (Hopen (CustomLog_init no_converters).1
           (CustomLog_init no_converters).2
           {| date := epoch; loglevel := "DEBUG"; sessionid := "SID:1";
              businessid := "BID:2"; requestid := "RID:3";
              message := "'A" +:+ String newline EmptyString |}
           (String newline EmptyString) eq_refl eq_refl).
Defined.

(** ** The header pattern, [strptime] and [strftime] *)

Lemma str_app_cons (x : ascii) (a b : string) :
  String x a +:+ b = String x (a +:+ b).
Proof. reflexivity. Qed.

Lemma str_app_nil_l (b : string) : EmptyString +:+ b = b.
Proof. reflexivity. Qed.

Lemma str_app_assoc (a b c : string) : (a +:+ b) +:+ c = a +:+ (b +:+ c).
Proof.
  induction a as [|x a IH]; [done|]. by rewrite !str_app_cons, IH.
Qed.

Lemma str_app_nil_r (a : string) : a +:+ EmptyString = a.
Proof. induction a as [|x a IH]; [done|]. by rewrite str_app_cons, IH. Qed.

Lemma str_forall_app (p : ascii -> bool) (a b : string) :
  str_forall p (a +:+ b) = str_forall p a && str_forall p b.
Proof.
  induction a as [|x a IH]; [done|].
  rewrite str_app_cons. simpl. by rewrite IH, andb_assoc.
Qed.

Lemma exactly_inv (n : nat) (p : ascii -> bool) :
  forall s a b, exactly n p s = Some (a, b) ->
    s = a +:+ b /\ String.length a = n /\ str_forall p a = true.
Proof.
  induction n as [|n IH]; intros s a b Hs; simpl in Hs.
  { by injection Hs as <- <-. }
  destruct s as [|c s]; [done|]. destruct (p c) eqn:Hc; [|done].
  destruct (exactly n p s) as [[a' b']|] eqn:Hrest; [|done].
  injection Hs as <- <-. destruct (IH _ _ _ Hrest) as (-> & <- & Hall).
  rewrite str_app_cons. simpl. by rewrite Hc, Hall.
Qed.

Lemma exactly_app (p : ascii -> bool) (a b : string) :
  str_forall p a = true -> exactly (String.length a) p (a +:+ b) = Some (a, b).
Proof.
  induction a as [|c a IH]; [done|]. rewrite str_app_cons. simpl.
  intros [-> Ha]%andb_true_iff. by rewrite (IH Ha).
Qed.

Lemma literal_inv (lit : string) :
  forall s r, literal lit s = Some r -> s = lit +:+ r.
Proof.
  induction lit as [|a lit IH]; intros s r Hs; simpl in Hs.
  { by injection Hs as ->. }
  destruct s as [|c s]; [done|].
  destruct (Ascii.eqb_spec a c) as [->|]; [|done].
  rewrite str_app_cons. by rewrite (IH _ _ Hs).
Qed.

Lemma literal_app (lit r : string) : literal lit (lit +:+ r) = Some r.
Proof.
  induction lit as [|a lit IH]; [done|].
  rewrite str_app_cons. simpl. by rewrite Ascii.eqb_refl.
Qed.

Lemma span_inv (p : ascii -> bool) :
  forall s a b, span p s = (a, b) -> s = a +:+ b /\ str_forall p a = true.
Proof.
  induction s as [|c s IH]; intros a b Hs; simpl in Hs.
  { by injection Hs as <- <-. }
  destruct (p c) eqn:Hc.
  - destruct (span p s) as [a' b'] eqn:Hrest. injection Hs as <- <-.
    destruct (IH _ _ eq_refl) as [-> Hall]. rewrite str_app_cons. simpl.
    by rewrite Hc, Hall.
  - by injection Hs as <- <-.
Qed.

Lemma span_all (p : ascii -> bool) (s : string) :
  str_forall p s = true -> span p s = (s, EmptyString).
Proof.
  induction s as [|c s IH]; simpl; [done|].
  intros [-> Hs]%andb_true_iff. by rewrite (IH Hs).
Qed.

Lemma many1_inv (p : ascii -> bool) (s a b : string) :
  many1 p s = Some (a, b) -> s = a +:+ b.
Proof.
  unfold many1. destruct (span p s) as [a' b'] eqn:Hs.
  destruct (str_empty a'); [done|]. intros [= <- <-].
  by destruct (span_inv _ _ _ _ Hs).
Qed.

Lemma match_tagged_inv (tag : string) (body : ascii -> bool) (s a b : string) :
  match_tagged tag body s = Some (a, b) -> s = a +:+ b.
Proof.
  unfold match_tagged.
  destruct (literal tag s) as [s1|] eqn:H1; [|done]. simpl.
  destruct (many1 body s1) as [[x s2]|] eqn:H2; [|done]. simpl.
  intros [= <- <-]. apply literal_inv in H1 as ->. apply many1_inv in H2 as ->.
  by rewrite str_app_assoc.
Qed.

(** ** Decimal digits *)

Lemma digit_value_range (c : ascii) :
  is_digit c = true -> (0 <= digit_value c <= 9)%Z.
Proof.
  unfold is_digit, char_between, digit_value.
  intros [?%Nat.leb_le ?%Nat.leb_le]%andb_true_iff. lia.
Qed.

Lemma digit_char_value (c : ascii) :
  is_digit c = true -> digit_char (digit_value c) = c.
Proof.
  intros Hc. pose proof (digit_value_range c Hc) as Hr.
  unfold digit_char, digit_value in *.
  replace (Z.to_nat (Z.of_nat (nat_of_ascii c) - 48 + 48))
    with (nat_of_ascii c) by lia.
  apply ascii_nat_embedding.
Qed.

Lemma int_from_nonneg (s : string) :
  forall acc, str_forall is_digit s = true -> (0 <= acc)%Z ->
    (0 <= int_from acc s)%Z.
Proof.
  induction s as [|c s IH]; intros acc Hs Hacc; simpl; [done|].
  simpl in Hs. apply andb_true_iff in Hs as [Hc Hs].
  apply IH; [done|]. pose proof (digit_value_range c Hc). lia.
Qed.

(** Printing the number a digit string denotes, padded to the length of
    the string, gives the string back. *)
Lemma zero_padded_int_from (s : string) :
  forall k acc, str_forall is_digit s = true ->
    zero_padded (k + String.length s) (int_from acc s)
    = zero_padded k acc +:+ s.
Proof.
  induction s as [|c s IH]; intros k acc Hs; simpl.
  { by rewrite Nat.add_0_r, str_app_nil_r. }
  simpl in Hs. apply andb_true_iff in Hs as [Hc Hs].
  replace (k + S (String.length s)) with (S k + String.length s) by lia.
  rewrite (IH (S k) _ Hs). simpl.
  pose proof (digit_value_range c Hc) as Hr.
  replace ((acc * 10 + digit_value c) / 10)%Z with acc
    by (apply Z.div_unique with (digit_value c); lia).
  replace ((acc * 10 + digit_value c) mod 10)%Z with (digit_value c)
    by (apply Z.mod_unique with acc; lia).
  by rewrite (digit_char_value c Hc), str_app_assoc, str_app_cons.
Qed.

Lemma zero_padded_int (n : nat) (s : string) :
  String.length s = n -> str_forall is_digit s = true ->
  zero_padded n (int s) = s.
Proof.
  intros <- Hs. apply (zero_padded_int_from s 0 0 Hs).
Qed.

(** ** A header line and its groups *)

(** One step through a matcher written in the option monad: name what
    the next piece matched, or finish when it did not match. *)
Tactic Notation "next_piece" hyp(Hm) "as" simple_intropattern(p)
    "eqn" ":" ident(E) :=
  match type of Hm with
  | (?m ≫= _) = Some _ =>
      destruct m as [p|] eqn:E;
      [cbn [mbind option_bind] in Hm | done]
  end.

Lemma match_date_inv (s date rest : string) :
  match_date s = Some (date, rest) ->
  s = date +:+ rest
  /\ exists yyyy mo dd hh mi ss,
       date = yyyy +:+ "-" +:+ mo +:+ "-" +:+ dd +:+ " "
                +:+ hh +:+ ":" +:+ mi +:+ ":" +:+ ss
       /\ (String.length yyyy = 4 /\ str_forall is_digit yyyy = true)
       /\ (String.length mo = 2 /\ str_forall is_digit mo = true)
       /\ (String.length dd = 2 /\ str_forall is_digit dd = true)
       /\ (String.length hh = 2 /\ str_forall is_digit hh = true)
       /\ (String.length mi = 2 /\ str_forall is_digit mi = true)
       /\ (String.length ss = 2 /\ str_forall is_digit ss = true).
Proof.
  unfold match_date. intros Hm.
  next_piece Hm as [yyyy s1] eqn:H1.
  next_piece Hm as s2 eqn:H2.
  next_piece Hm as [mo s3] eqn:H3.
  next_piece Hm as s4 eqn:H4.
  next_piece Hm as [dd s5] eqn:H5.
  next_piece Hm as s6 eqn:H6.
  next_piece Hm as [hh s7] eqn:H7.
  next_piece Hm as s8 eqn:H8.
  next_piece Hm as [mi s9] eqn:H9.
  next_piece Hm as s10 eqn:H10.
  next_piece Hm as [ss s11] eqn:H11. injection Hm as <- <-.
  apply exactly_inv in H1 as (-> & L1 & D1), H3 as (-> & L3 & D3),
    H5 as (-> & L5 & D5), H7 as (-> & L7 & D7), H9 as (-> & L9 & D9),
    H11 as (-> & L11 & D11).
  apply literal_inv in H2 as ->, H4 as ->, H6 as ->, H8 as ->, H10 as ->.
  split.
  - by rewrite !str_app_assoc.
  - by exists yyyy, mo, dd, hh, mi, ss.
Qed.

Lemma strptime_date_string (yyyy mo dd hh mi ss : string) :
  String.length yyyy = 4 /\ str_forall is_digit yyyy = true ->
  String.length mo = 2 /\ str_forall is_digit mo = true ->
  String.length dd = 2 /\ str_forall is_digit dd = true ->
  String.length hh = 2 /\ str_forall is_digit hh = true ->
  String.length mi = 2 /\ str_forall is_digit mi = true ->
  String.length ss = 2 /\ str_forall is_digit ss = true ->
  strptime (yyyy +:+ "-" +:+ mo +:+ "-" +:+ dd +:+ " "
              +:+ hh +:+ ":" +:+ mi +:+ ":" +:+ ss)
  = if valid_datetime {| year := int yyyy; month := int mo; day := int dd;
                         hour := int hh; minute := int mi; second := int ss |}
    then Ok {| year := int yyyy; month := int mo; day := int dd;
               hour := int hh; minute := int mi; second := int ss |}
    else Raise ValueError_strptime.
Proof.
  intros [L1 D1] [L2 D2] [L3 D3] [L4 D4] [L5 D5] [L6 D6]. unfold strptime.
  rewrite <- L1 at 1. rewrite (exactly_app _ _ _ D1).
  cbn [mbind option_bind]. rewrite literal_app. cbn [mbind option_bind].
  rewrite <- L2 at 1. rewrite (exactly_app _ _ _ D2).
  cbn [mbind option_bind]. rewrite literal_app. cbn [mbind option_bind].
  rewrite <- L3 at 1. rewrite (exactly_app _ _ _ D3).
  cbn [mbind option_bind]. rewrite literal_app. cbn [mbind option_bind].
  rewrite <- L4 at 1. rewrite (exactly_app _ _ _ D4).
  cbn [mbind option_bind]. rewrite literal_app. cbn [mbind option_bind].
  rewrite <- L5 at 1. rewrite (exactly_app _ _ _ D5).
  cbn [mbind option_bind]. rewrite literal_app. cbn [mbind option_bind].
  rewrite <- (str_app_nil_r ss) at 1.
  rewrite <- L6 at 1. rewrite (exactly_app _ _ _ D6).
  cbn [mbind option_bind]. done.
Qed.

Lemma strftime_date_string (yyyy mo dd hh mi ss : string) :
  String.length yyyy = 4 /\ str_forall is_digit yyyy = true ->
  String.length mo = 2 /\ str_forall is_digit mo = true ->
  String.length dd = 2 /\ str_forall is_digit dd = true ->
  String.length hh = 2 /\ str_forall is_digit hh = true ->
  String.length mi = 2 /\ str_forall is_digit mi = true ->
  String.length ss = 2 /\ str_forall is_digit ss = true ->
  (1900 <= int yyyy)%Z ->
  strftime {| year := int yyyy; month := int mo; day := int dd;
              hour := int hh; minute := int mi; second := int ss |}
  = Ok (yyyy +:+ "-" +:+ mo +:+ "-" +:+ dd +:+ " "
          +:+ hh +:+ ":" +:+ mi +:+ ":" +:+ ss).
Proof.
  intros [L1 D1] [L2 D2] [L3 D3] [L4 D4] [L5 D5] [L6 D6] Hyear.
  unfold strftime. cbn [year month day hour minute second].
  destruct (Z.ltb_spec (int yyyy) 1900) as [?|_]; [lia|].
  by rewrite !zero_padded_int.
Qed.

(** What [strptime] accepts, [strftime] prints back, from 1900 on. *)
Lemma strftime_strptime (s date rest : string) (d : datetime) :
  match_date s = Some (date, rest) ->
  strptime date = Ok d -> (1900 <= year d)%Z ->
  strftime d = Ok date.
Proof.
  intros (_ & yyyy & mo & dd & hh & mi & ss & -> & P1 & P2 & P3 & P4 & P5 & P6)
    %match_date_inv Hparse Hyear.
  rewrite strptime_date_string in Hparse by done.
  destruct (valid_datetime _); [|done]. injection Hparse as <-.
  by apply strftime_date_string.
Qed.

Lemma str_forall_suffix (p : ascii -> bool) (a b : string) :
  str_forall p (a +:+ b) = true -> str_forall p b = true.
Proof. rewrite str_forall_app. by intros [_ ?]%andb_true_iff. Qed.

(** A line that matches is its groups joined by single spaces, followed
    by whatever comes after the first newline; without a newline, by
    nothing. *)
Lemma entry_re_match_inv (line : string) (groups : match_groups) :
  _entry_re_match line = Some groups ->
  exists rest tail,
    match_date line = Some (group_date groups, rest)
    /\ line = str_join " " [group_date groups; group_loglevel groups;
                            group_sessionid groups; group_businessid groups;
                            group_requestid groups; group_message groups]
              +:+ tail
    /\ (str_forall is_dot line = true -> tail = EmptyString).
Proof.
  unfold _entry_re_match. intros Hm.
  next_piece Hm as [date s1] eqn:H1.
  next_piece Hm as s2 eqn:H2.
  next_piece Hm as [level s3] eqn:H3.
  next_piece Hm as s4 eqn:H4.
  next_piece Hm as [sid s5] eqn:H5.
  next_piece Hm as s6 eqn:H6.
  next_piece Hm as [bid s7] eqn:H7.
  next_piece Hm as s8 eqn:H8.
  next_piece Hm as [rid s9] eqn:H9.
  next_piece Hm as s10 eqn:H10.
  next_piece Hm as s11 eqn:H11.
  destruct (span is_dot s11) as [body tail] eqn:H12.
  injection Hm as <-. cbn [group_date group_loglevel group_sessionid
    group_businessid group_requestid group_message str_join].
  exists s1, tail. split; [done|].
  pose proof (proj1 (match_date_inv _ _ _ H1)) as E1.
  apply literal_inv in H2 as E2, H4 as E4, H6 as E6, H8 as E8, H10 as E10,
    H11 as E11.
  apply many1_inv in H3 as E3.
  apply match_tagged_inv in H5 as E5, H7 as E7, H9 as E9.
  destruct (span_inv _ _ _ _ H12) as [E12 _].
  assert (line = date +:+ " " +:+ level +:+ " " +:+ sid +:+ " " +:+ bid
                   +:+ " " +:+ rid +:+ " "
                   +:+ String _message_boundary EmptyString +:+ s11) as Eline.
  { rewrite E1, E2, E3, E4, E5, E6, E7, E8, E9, E10, E11. done. }
  split.
  - rewrite Eline, E12. by rewrite !str_app_assoc.
  - intros Hdots. rewrite Eline in Hdots.
    do 11 apply str_forall_suffix in Hdots.
    rewrite (span_all _ _ Hdots) in H12. by injection H12 as _ <-.
Qed.

Lemma append_loop_succeeds {V : Type} `{PyValue V} {E : Type}
    `{Attributes E V} (convs : gmap string (V -> result V)) (e : E)
    (n : nat) (fields : list string) :
  forall buckets,
    (forall g, g ∈ fields -> is_Some (buckets !! g)) ->
    (forall g, g ∈ fields -> exists k, sortable_value convs e g = Ok k) ->
    (append_loop convs e n fields buckets).2 = Ok tt.
Proof.
  induction fields as [|g fields IH]; intros buckets Hdom Hkeys; [done|].
  simpl. destruct (Hkeys g) as [k ->]; [by left|].
  destruct (Hdom g) as [b ->]; [by left|].
  apply IH.
  - intros g' Hg'. destruct (decide (g = g')) as [->|Hne].
    + rewrite lookup_insert_eq. by eexists.
    + rewrite lookup_insert_ne by done. apply Hdom. by right.
  - intros g' Hg'. apply Hkeys. by right.
Qed.

(** C7 (as amended). A line that matches the header pattern, holds no
    line terminator, closes its message, carries a date and time that
    [strptime] accepts with a year from 1900 on, and has ERROR, WARN or
    DEBUG as its severity, is loaded into a new [CustomLog] as one record
    whose [str] is the line. *)
Theorem single_line_round_trip
    (convs : gmap string (pyval -> result pyval)) (line : string)
    (groups : match_groups) (d : datetime) :
  _entry_re_match line = Some groups ->
  str_forall is_dot line = true ->
  ends_with_boundary (group_message groups) = true ->
  strptime (group_date groups) = Ok d ->
  (1900 <= year d)%Z ->
  group_loglevel groups ∈ ["ERROR"; "WARN"; "DEBUG"] ->
  exists e,
    (load (CustomLog_init convs).1 (CustomLog_init convs).2 [line]).2 = Ok tt
    /\ entries (load (CustomLog_init convs).1 (CustomLog_init convs).2
                  [line]).1
       = [LogEntryObj e]
    /\ LogEntry_str e = Ok line.
Proof.
  intros Hmatch Hdots Hend Hparse Hyear Hlevel.
  destruct (entry_re_match_inv _ _ Hmatch) as (rest & tail & Hdate & Eline & Htail).
  rewrite (Htail Hdots), str_app_nil_r in Eline.
  exists {| date := d;
            loglevel := group_loglevel groups;
            sessionid := group_sessionid groups;
            businessid := group_businessid groups;
            requestid := group_requestid groups;
            message := group_message groups |}.
  set (e := {| date := d |}).
  set (self0 := LogContainer_init (V:=pyval) (E:=pyobj)
                  CustomLog_searchable_fields).
  assert ((append (CustomLog_install convs) self0 (LogEntryObj e)).2 = Ok tt)
    as Happ.
  { unfold append.
    pose proof (append_loop_succeeds (CustomLog_install convs) (LogEntryObj e)
                  (length (_entries self0 ++ [LogEntryObj e]) - 1)
                  CustomLog_searchable_fields (_buckets self0)) as Hloop.
    destruct (append_loop _ _ _ _ _) as [b' r]. cbn [snd] in *. apply Hloop.
    - intros g Hg. unfold self0. rewrite init_lookup.
      rewrite decide_True by done. by eexists.
    - destruct (CustomLog_install_lookup convs) as (Hd & Hl & Hs & Hb).
      intros g Hg. unfold sortable_value, _marshall_value.
      repeat (apply elem_of_cons in Hg as [->|Hg]); [..|by inversion Hg].
      + rewrite Hd. by eexists.
      + rewrite Hl. simpl.
        repeat (apply elem_of_cons in Hlevel as [->|Hlevel]);
          [by eexists..|by inversion Hlevel].
      + rewrite Hs. by eexists.
      + rewrite Hb. by eexists. }
  pose proof (append_entries (CustomLog_install convs) self0 (LogEntryObj e))
    as Hents.
  unfold load, load_from, load_line, CustomLog_init. cbn [fst snd].
  rewrite Hmatch, Hparse. cbn [message]. rewrite Hend.
  fold e self0. destruct (append _ _ _) as [self' outcome].
  simpl in Happ, Hents.
  subst outcome. simpl. repeat split; [done|].
  unfold LogEntry_str, e. cbn [date loglevel sessionid businessid requestid
    message].
  rewrite (strftime_strptime _ _ _ _ Hdate Hparse Hyear).
  cbn [mbind result_bind]. by rewrite Eline.
Qed.

Lemma single_line_round_trip_witness :
  exists e,
    (load (CustomLog_init no_converters).1 (CustomLog_init no_converters).2
       ["2012-01-01 00:00:01 DEBUG SID:1 BID:2 RID:3 'A'"]).2 = Ok tt
    /\ entries (load (CustomLog_init no_converters).1
                  (CustomLog_init no_converters).2
                  ["2012-01-01 00:00:01 DEBUG SID:1 BID:2 RID:3 'A'"]).1
       = [LogEntryObj e]
    /\ LogEntry_str e = Ok "2012-01-01 00:00:01 DEBUG SID:1 BID:2 RID:3 'A'".
Proof.
  eapply (single_line_round_trip no_converters
            "2012-01-01 00:00:01 DEBUG SID:1 BID:2 RID:3 'A'").
  - vm_compute. reflexivity.
  - reflexivity.
  - reflexivity.
  - vm_compute. reflexivity.
  - simpl. lia.
  - simpl. do 2 apply list_elem_of_further. apply list_elem_of_here.
Defined.

(** C7 as stated fails: a line can match the header pattern, with its
    message closed, and still not load. An unlisted severity makes
    [append] raise, and so does a date [strptime] refuses (month 13). *)
Lemma header_line_not_loaded :
  (is_Some (_entry_re_match "2012-01-01 00:00:01 INFO SID:1 BID:2 RID:3 'A'")
   /\ (load (CustomLog_init no_converters).1 (CustomLog_init no_converters).2
         ["2012-01-01 00:00:01 INFO SID:1 BID:2 RID:3 'A'"]).2
      = Raise ValueError_unknown_loglevel)
  /\ (is_Some (_entry_re_match
                 "2012-13-01 00:00:01 DEBUG SID:1 BID:2 RID:3 'A'")
      /\ load (CustomLog_init no_converters).1 (CustomLog_init no_converters).2
           ["2012-13-01 00:00:01 DEBUG SID:1 BID:2 RID:3 'A'"]
         = ((CustomLog_init no_converters).2, Raise ValueError_strptime)).
Proof. repeat split; vm_compute; eauto. Qed.

(** * Further properties of the container *)

Section Queries.
Context {V : Type} `{PyOrder V} {E : Type} `{Attributes E V}.

(** A point query on an instance filled under [convs]: the records with
    the key of the query, in stored order. *)
Lemma point_query_sorted (fields : list string) convs (ents : list E)
    (self : LogContainer V E) (field : string) (value value_to lo : V) :
  run_appends (LogContainer_init fields) ((fun e => (convs, e)) <$> ents)
    = (self, Ok tt) ->
  occurrences field fields = 1 ->
  _marshall_value convs field value = Ok lo ->
  py_truth value_to = false ->
  find_by convs self field value value_to
  = Ok (with_key convs field (py_eq lo) ents).
Proof.
  intros Hrun Hocc Hlo Hfalse.
  assert (field ∈ fields) as Hfield by (apply occurrences_pos; lia).
  destruct (find_by_sorted fields convs ents self field lo lo Hrun Hfield)
    as (bucket & Hlook & Hents & Hsorted & Hperm & Hslice).
  rewrite Hocc in Hperm.
  unfold find_by. rewrite Hlo. simpl. rewrite Hfalse. simpl.
  rewrite Hlook. simpl. rewrite Hslice, Hents.
  rewrite <- (referenced_index_pairs convs field (py_eq lo) ents []).
  simpl. f_equal.
  assert (forall y : V * nat,
            py_le lo y.1 /\ py_le y.1 lo <-> py_eq lo y.1 = true) as Hiff.
  { intros y. rewrite py_eq_spec. split.
    - intros [? ?]. by apply py_le_antisym.
    - intros <-. split; apply py_le_refl. }
  apply (StronglySorted_unique pair_le).
  - by apply StronglySorted_filter.
  - apply (StronglySorted_on (fun x y : V * nat => x.2 < y.2) pair_le
             (fun y => py_eq lo y.1 = true)).
    + apply StronglySorted_filter, index_pairs_by_position.
    + apply Forall_forall. by intros y [? _]%list_elem_of_filter.
    + intros x y Hx%py_eq_spec Hy%py_eq_spec Hxy. right.
      split; [congruence|lia].
  - rewrite Hperm. by rewrite (list_filter_iff _ _ _ Hiff).
Qed.

Lemma slice_subseteq {T} (a : list T) (lo hi : nat) (x : T) :
  x ∈ slice a lo hi -> x ∈ a.
Proof.
  unfold slice. intros (i & Hi & _)%elem_of_take.
  rewrite lookup_drop in Hi. by eapply list_elem_of_lookup_2.
Qed.
End Queries.

(** X1. In every state of an instance, [append] returns exactly when the
    record has a sort key for every searchable field: each field is an
    attribute of the record and its converter, if any, accepts the
    value. *)
Theorem append_returns_iff {V : Type} `{PyOrder V} {E : Type}
    `{Attributes E V} (fields : list string)
    (convs : gmap string (V -> result V)) (self : LogContainer V E)
    (entry : E) :
  reachable fields self ->
  ((append convs self entry).2 = Ok tt
   <-> forall g, g ∈ fields -> exists k, sortable_value convs entry g = Ok k).
Proof.
  intros Hreach. destruct (reachable_dom _ _ Hreach) as [Hfields Hdom].
  unfold append.
  pose proof (append_loop_succeeds convs entry
                (length (_entries self ++ [entry]) - 1) fields
                (_buckets self)) as Hsucc.
  rewrite Hfields.
  destruct (append_loop convs entry _ fields (_buckets self))
    as [buckets' outcome] eqn:Hloop.
  simpl in *. split.
  - intros ->. by apply append_loop_ok in Hloop as [Hkeys _].
  - intros Hkeys. apply Hsucc; [|done]. intros g Hg. by apply Hdom.
Qed.

Lemma append_returns_iff_witness :
  (append no_converters load_container (Entry (VInt 7) (VStr "!"))).2 = Ok tt.
Proof.
  apply (append_returns_iff ["a"]).
  - apply run_appends_reachable, reachable_init.
  - intros g ->%list_elem_of_singleton. exists (VInt 7). reflexivity.
Defined.

(** X2. After appends that all returned, [find_by] on a searchable field
    returns whenever the query values convert: no position in an index
    is out of range. Every record it returns is a stored record. On an
    instance without records the result is empty. *)
Theorem find_by_returns_stored_records {V : Type} `{PyOrder V} {E : Type}
    `{Attributes E V} (fields : list string)
    (steps : list (gmap string (V -> result V) * E))
    (convs : gmap string (V -> result V)) (self : LogContainer V E)
    (field : string) (value value_to lo : V) :
  run_appends (LogContainer_init fields) steps = (self, Ok tt) ->
  field ∈ fields ->
  _marshall_value convs field value = Ok lo ->
  (py_truth value_to = true ->
   exists hi, _marshall_value convs field value_to = Ok hi) ->
  exists res,
    find_by convs self field value value_to = Ok res
    /\ (forall e, e ∈ res -> e ∈ entries self)
    /\ (entries self = [] -> res = []).
Proof.
  intros Hrun Hfield Hlo Hhi.
  pose proof (run_appends_invariant fields steps [] _ _
                (init_invariant fields) Hrun) as (_ & Hents & Hidx).
  simpl in Hents, Hidx.
  destruct (proj1 (Hidx field) Hfield) as (bucket & Hlook & _ & Hperm).
  assert (exists hi', (if py_truth value_to
                       then _marshall_value convs field value_to
                       else Ok lo) = Ok hi') as [hi' Hhi'].
  { destruct (py_truth value_to); [by apply Hhi | by eexists]. }
  destruct (referenced_ok (_entries self) (find_slice self bucket lo hi'))
    as (res & Hres & Hall).
  { apply Forall_forall. intros p Hp%slice_subseteq. rewrite Hperm in Hp.
    pose proof (index_pairs_position (occurrences field fields) field steps 0)
      as Hpos.
    rewrite Forall_forall in Hpos. apply Hpos in Hp.
    rewrite Hents, length_fmap. lia. }
  exists res. repeat split.
  - unfold find_by. rewrite Hlo. simpl. rewrite Hhi'. simpl.
    rewrite Hlook. simpl. exact Hres.
  - intros e He. apply list_elem_of_lookup_1 in He as [i Hi].
    destruct (Forall2_lookup_r _ _ _ _ _ Hall Hi) as (p & _ & Hp).
    by eapply list_elem_of_lookup_2.
  - intros Hempty. unfold entries in Hempty. rewrite Hempty in Hall.
    destruct res as [|e res]; [done|]. apply Forall2_cons_inv_r in Hall
      as (p & pairs & Hp & _ & _). by rewrite lookup_nil in Hp.
Qed.

Lemma find_by_returns_stored_records_witness :
  exists res,
    find_by no_converters load_container "a" (VInt 2) (VInt 3) = Ok res
    /\ (forall e, e ∈ res -> e ∈ entries load_container)
    /\ (entries load_container = [] -> res = []).
Proof.
  apply (find_by_returns_stored_records ["a"]
           (under no_converters test_entries) no_converters load_container
           "a" (VInt 2) (VInt 3) (VInt 2)).
  - vm_compute. reflexivity.
  - by apply list_elem_of_singleton.
  - reflexivity.
  - intros _. exists (VInt 3). reflexivity.
Defined.

(** X3. Insert, then look up. After appends that all returned under one
    registry, a point query with the value the last record carries in a
    searchable field (listed once) returns that record, after the earlier
    records with the same sort key and nothing else. *)
Theorem find_by_finds_appended_record {V : Type} `{PyOrder V} {E : Type}
    `{Attributes E V} (fields : list string)
    (convs : gmap string (V -> result V)) (ents : list E) (entry : E)
    (self : LogContainer V E) (field : string) (value : V) :
  run_appends (LogContainer_init fields)
    ((fun e => (convs, e)) <$> (ents ++ [entry])) = (self, Ok tt) ->
  occurrences field fields = 1 ->
  getattr entry field = Some value ->
  exists key,
    sortable_value convs entry field = Ok key
    /\ find_by convs self field value py_None
       = Ok (with_key convs field (py_eq key) ents ++ [entry]).
Proof.
  intros Hrun Hocc Hattr.
  assert (field ∈ fields) as Hfield by (apply occurrences_pos; lia).
  destruct (run_appends_keys fields _ (LogContainer_init fields) self
              eq_refl Hrun convs entry field) as [key Hkey]; [|done|].
  { apply list_elem_of_fmap. exists entry. split; [done|].
    apply elem_of_app. right. by apply list_elem_of_singleton. }
  exists key. split; [done|].
  rewrite (point_query_sorted fields convs (ents ++ [entry]) self field
             value py_None key Hrun Hocc).
  - assert (key_satisfies convs field (py_eq key) entry = true) as Hsat.
    { unfold key_satisfies. rewrite Hkey. apply py_eq_refl. }
    unfold with_key. rewrite filter_app, filter_cons, filter_nil.
    by rewrite decide_True.
  - unfold sortable_value in Hkey. by rewrite Hattr in Hkey.
  - apply py_truth_None.
Qed.

Lemma find_by_finds_appended_record_witness :
  exists key,
    sortable_value no_converters (Entry (VInt 2) (VStr "%")) "a" = Ok key
    /\ find_by no_converters load_container "a" (VInt 2) py_None
       = Ok (with_key no_converters "a" (py_eq key)
               [Entry (VInt 1) (VStr "+"); Entry (VInt 2) (VStr "-");
                Entry (VInt 3) (VStr "/")]
             ++ [Entry (VInt 2) (VStr "%")]).
Proof.
  apply (find_by_finds_appended_record ["a"] no_converters
           [Entry (VInt 1) (VStr "+"); Entry (VInt 2) (VStr "-");
            Entry (VInt 3) (VStr "/")]
           (Entry (VInt 2) (VStr "%")) load_container "a" (VInt 2)).
  - vm_compute. reflexivity.
  - reflexivity.
  - reflexivity.
Defined.

(** * Further properties of [CustomLog.load] *)

Lemma header_resets (convs : gmap string (pyval -> result pyval))
    (self : LogContainer pyval pyobj) (pending : option LogEntry)
    (line : string) (rest : list string) :
  is_Some (_entry_re_match line) ->
  load_from convs self pending (line :: rest)
  = load_from convs self None (line :: rest).
Proof. intros [groups Hm]. simpl. unfold load_line. by rewrite Hm. Qed.

(** X4. Lines that do not match the header pattern, met while no record
    is open, are skipped: the rest of the input is loaded as if they
    were not there. An input of such lines only changes nothing. *)
Theorem load_skips_unmatched_lines
    (convs : gmap string (pyval -> result pyval))
    (self : LogContainer pyval pyobj) (junk rest : list string) :
  Forall (fun line => _entry_re_match line = None) junk ->
  load convs self (junk ++ rest) = load convs self rest
  /\ load convs self junk = (self, Ok tt).
Proof.
  intros Hjunk. unfold load.
  assert (forall tail, load_from convs self None (junk ++ tail)
                       = load_from convs self None tail) as Hskip.
  { intros tail. induction Hjunk as [|line junk Hline _ IH]; [done|].
    simpl. unfold load_line. by rewrite Hline. }
  split; [apply Hskip|].
  by rewrite <- (app_nil_r junk), Hskip.
Qed.

Lemma load_skips_unmatched_lines_witness :
  load (CustomLog_init no_converters).1 (CustomLog_init no_converters).2
    (["01/01/2012 DEBUG blah"; String newline EmptyString]
       ++ ["2012-01-01 00:00:01 DEBUG SID:1 BID:2 RID:3 'A'"])
  = load (CustomLog_init no_converters).1 (CustomLog_init no_converters).2
      ["2012-01-01 00:00:01 DEBUG SID:1 BID:2 RID:3 'A'"]
  /\ load (CustomLog_init no_converters).1 (CustomLog_init no_converters).2
       ["01/01/2012 DEBUG blah"; String newline EmptyString]
     = ((CustomLog_init no_converters).2, Ok tt).
Proof.
  apply load_skips_unmatched_lines.
  repeat constructor.
Defined.

(** X5. Loading one input and then a second one that starts with a
    header line gives the same as loading the two joined: whatever the
    first input left open is dropped either way. *)
Theorem load_then_load (convs : gmap string (pyval -> result pyval))
    (self : LogContainer pyval pyobj) (first : list string)
    (header : string) (rest : list string) :
  (load convs self first).2 = Ok tt ->
  is_Some (_entry_re_match header) ->
  load convs (load convs self first).1 (header :: rest)
  = load convs self (first ++ header :: rest).
Proof.
  intros Hfirst Hheader. unfold load in *.
  assert (forall (self : LogContainer pyval pyobj) pending,
            (load_from convs self pending first).2 = Ok tt ->
            load_from convs (load_from convs self pending first).1 None
              (header :: rest)
            = load_from convs self pending (first ++ header :: rest))
    as Hgen; [|by apply Hgen].
  clear self Hfirst.
  induction first as [|line first IH]; intros self pending Hfirst.
  { symmetry. exact (header_resets convs self pending header rest Hheader). }
  simpl in *.
  destruct (load_line convs self pending line) as [self1 [next|err]];
    [|done].
  by apply IH.
Qed.

Lemma load_then_load_witness :
  load (CustomLog_init no_converters).1
    (load (CustomLog_init no_converters).1 (CustomLog_init no_converters).2
       ["2012-01-01 00:00:00 DEBUG SID:1 BID:2 RID:3 'open"]).1
    ["2012-01-01 00:00:01 DEBUG SID:1 BID:2 RID:3 'A'"]
  = load (CustomLog_init no_converters).1 (CustomLog_init no_converters).2
      (["2012-01-01 00:00:00 DEBUG SID:1 BID:2 RID:3 'open"]
         ++ ["2012-01-01 00:00:01 DEBUG SID:1 BID:2 RID:3 'A'"]).
Proof.
  apply load_then_load.
  - vm_compute. reflexivity.
  - vm_compute. eauto.
Defined.

(** ** What the header pattern captures *)

Lemma many1_inv_full (p : ascii -> bool) (s a b : string) :
  many1 p s = Some (a, b) ->
  s = a +:+ b /\ str_empty a = false /\ str_forall p a = true.
Proof.
  unfold many1. destruct (span p s) as [a' b'] eqn:Hs.
  destruct (str_empty a') eqn:Hne; [done|]. intros [= <- <-].
  by destruct (span_inv _ _ _ _ Hs).
Qed.

Lemma match_tagged_inv_full (tag : string) (body : ascii -> bool)
    (s a b : string) :
  match_tagged tag body s = Some (a, b) -> tagged tag body a.
Proof.
  unfold match_tagged.
  destruct (literal tag s) as [s1|] eqn:H1; [|done]. simpl.
  destruct (many1 body s1) as [[x s2]|] eqn:H2; [|done]. simpl.
  intros [= <- <-]. apply many1_inv_full in H2 as (_ & Hne & Hall).
  by exists x.
Qed.

Lemma strptime_valid (s : string) (d : datetime) :
  strptime s = Ok d -> valid_datetime d = true.
Proof.
  unfold strptime.
  destruct (_ ≫= _) as [d'|]; [|done].
  destruct (valid_datetime d') eqn:Hvalid; [|done]. by intros [= <-].
Qed.

Lemma entry_re_match_groups (line : string) (groups : match_groups) :
  _entry_re_match line = Some groups ->
  (str_empty (group_loglevel groups) = false
   /\ str_forall is_word (group_loglevel groups) = true)
  /\ tagged "SID:" is_digit (group_sessionid groups)
  /\ tagged "BID:" is_digit (group_businessid groups)
  /\ tagged "RID:" is_hex (group_requestid groups)
  /\ exists body, group_message groups = String _message_boundary body.
Proof.
  unfold _entry_re_match. intros Hm.
  next_piece Hm as [date s1] eqn:H1.
  next_piece Hm as s2 eqn:H2.
  next_piece Hm as [level s3] eqn:H3.
  next_piece Hm as s4 eqn:H4.
  next_piece Hm as [sid s5] eqn:H5.
  next_piece Hm as s6 eqn:H6.
  next_piece Hm as [bid s7] eqn:H7.
  next_piece Hm as s8 eqn:H8.
  next_piece Hm as [rid s9] eqn:H9.
  next_piece Hm as s10 eqn:H10.
  next_piece Hm as s11 eqn:H11.
  destruct (span is_dot s11) as [body tail] eqn:H12.
  injection Hm as <-. cbn [group_loglevel group_sessionid
    group_businessid group_requestid group_message].
  apply many1_inv_full in H3 as (_ & ? & ?).
  apply match_tagged_inv_full in H5, H7, H9.
  repeat split; try done. by exists body.
Qed.

(** ** When [load] returns, and what it stores *)

Lemma recognised_converts (level : string) :
  recognised level = true ->
  exists k, _loglevel_converter (VStr level) = Ok k.
Proof.
  unfold recognised. intros Hlevel.
  apply orb_true_iff in Hlevel as [Hlevel|Hlevel];
    [apply orb_true_iff in Hlevel as [Hlevel|Hlevel]|];
    apply String.eqb_eq in Hlevel as ->; by eexists.
Qed.

Lemma append_LogEntry_ok (convs : gmap string (pyval -> result pyval))
    (self : LogContainer pyval pyobj) (e : LogEntry) :
  reachable CustomLog_searchable_fields self ->
  recognised (loglevel e) = true ->
  (append (CustomLog_install convs) self (LogEntryObj e)).2 = Ok tt.
Proof.
  intros Hreach Hlevel. destruct (reachable_dom _ _ Hreach) as [Hfields Hdom].
  unfold append.
  pose proof (append_loop_succeeds (CustomLog_install convs) (LogEntryObj e)
                (length (_entries self ++ [LogEntryObj e]) - 1)
                CustomLog_searchable_fields (_buckets self)) as Hloop.
  rewrite Hfields.
  destruct (append_loop _ _ _ _ _) as [b' r]. cbn [snd] in *. apply Hloop.
  - intros g Hg. by apply Hdom.
  - destruct (CustomLog_install_lookup convs) as (Hd & Hl & Hs & Hb).
    intros g Hg. unfold sortable_value, _marshall_value.
    repeat (apply elem_of_cons in Hg as [->|Hg]); [..|by inversion Hg].
    + rewrite Hd. by eexists.
    + rewrite Hl. simpl. by apply recognised_converts.
    + rewrite Hs. by eexists.
    + rewrite Hb. by eexists.
Qed.

(** X6. [load] into a [CustomLog] returns normally whenever every line
    that matches the header pattern carries a date [strptime] accepts
    and a severity the converter knows; no other line can make it
    raise. *)
Theorem load_returns_on_known_headers
    (convs : gmap string (pyval -> result pyval))
    (self : LogContainer pyval pyobj) (data : list string) :
  reachable CustomLog_searchable_fields self ->
  Forall (fun line =>
            forall groups, _entry_re_match line = Some groups ->
              (exists d, strptime (group_date groups) = Ok d)
              /\ recognised (group_loglevel groups) = true) data ->
  (load (CustomLog_install convs) self data).2 = Ok tt.
Proof.
  intros Hreach Hdata. unfold load.
  assert (forall p, @None LogEntry = Some p -> recognised (loglevel p) = true)
    as Hpending by done.
  revert Hpending. generalize (@None LogEntry) as pending.
  revert self Hreach.
  induction Hdata as [|line data Hline _ IH]; intros self Hreach pending Hp;
    [done|].
  simpl. unfold load_line.
  destruct (_entry_re_match line) as [groups|] eqn:Hm.
  - destruct (Hline groups eq_refl) as [[d ->] Hlevel]. cbn [message].
    destruct (ends_with_boundary (group_message groups)).
    + pose proof (append_LogEntry_ok convs self
                    {| date := d;
                       loglevel := group_loglevel groups;
                       sessionid := group_sessionid groups;
                       businessid := group_businessid groups;
                       requestid := group_requestid groups;
                       message := group_message groups |} Hreach Hlevel)
        as Hok.
      pose proof (reachable_append _ self (CustomLog_install convs)
                    (LogEntryObj
                       {| date := d;
                          loglevel := group_loglevel groups;
                          sessionid := group_sessionid groups;
                          businessid := group_businessid groups;
                          requestid := group_requestid groups;
                          message := group_message groups |}) Hreach)
        as Hnext.
      destruct (append _ _ _) as [self' outcome]. simpl in Hok, Hnext.
      subst outcome. simpl. by apply IH.
    + apply IH; [done|]. by intros p [= <-].
  - destruct pending as [p|]; [|by apply IH].
    pose proof (Hp p eq_refl) as Hlevel.
    destruct (str_empty (rstrip line)
              || negb (ends_with_boundary (rstrip line))).
    + apply IH; [done|]. by intros p' [= <-].
    + pose proof (append_LogEntry_ok convs self
                    {| date := date p;
                       loglevel := loglevel p;
                       sessionid := sessionid p;
                       businessid := businessid p;
                       requestid := requestid p;
                       message := message p +:+ rstrip line |} Hreach Hlevel)
        as Hok.
      pose proof (reachable_append _ self (CustomLog_install convs)
                    (LogEntryObj
                       {| date := date p;
                          loglevel := loglevel p;
                          sessionid := sessionid p;
                          businessid := businessid p;
                          requestid := requestid p;
                          message := message p +:+ rstrip line |}) Hreach)
        as Hnext.
      destruct (append _ _ _) as [self' outcome]. simpl in Hok, Hnext.
      subst outcome. simpl. by apply IH.
Qed.

Lemma load_returns_on_known_headers_witness :
  (load (CustomLog_init no_converters).1 (CustomLog_init no_converters).2
     ["not a header"; "2012-01-01 00:00:01 WARN SID:1 BID:2 RID:3 'A'"]).2
  = Ok tt.
Proof.
  apply load_returns_on_known_headers; [apply reachable_init|].
  apply Forall_cons; split; [|apply Forall_cons; split; [|constructor]].
  - intros groups Hm. vm_compute in Hm. discriminate.
  - intros groups Hm. vm_compute in Hm. injection Hm as <-.
    split; [eexists|]; vm_compute; reflexivity.
Defined.

Lemma run_appends_app {V : Type} `{PyValue V} {E : Type} `{Attributes E V}
    (s1 s2 : list (gmap string (V -> result V) * E)) :
  forall self self1 : LogContainer V E,
    run_appends self s1 = (self1, Ok tt) ->
    run_appends self (s1 ++ s2) = run_appends self1 s2.
Proof.
  induction s1 as [|[convs e] s1 IH]; intros self self1 Hrun; simpl in *.
  { by injection Hrun as ->. }
  destruct (append convs self e) as [self' [[]|err]]; [|done]. by apply IH.
Qed.

(** [load] is a run of appends of well-formed records: the records it
    stores, in order, and, when it returns, the state those appends
    lead to. *)
Lemma load_from_trace (convs : gmap string (pyval -> result pyval))
    (data : list string) :
  forall (self : LogContainer pyval pyobj) (pending : option LogEntry),
    (forall p, pending = Some p -> header_fields_ok p) ->
    exists added,
      entries (load_from convs self pending data).1 = entries self ++ added
      /\ Forall wellformed added
      /\ ((load_from convs self pending data).2 = Ok tt ->
          run_appends self (under convs added)
          = ((load_from convs self pending data).1, Ok tt)).
Proof.
  induction data as [|line data IH]; intros self pending Hp.
  { exists []. by rewrite app_nil_r. }
  simpl. unfold load_line.
  assert (forall (self1 : LogContainer pyval pyobj) next added1,
            entries self1 = entries self ++ added1 ->
            Forall wellformed added1 ->
            run_appends self (under convs added1) = (self1, Ok tt) ->
            (forall p, next = Some p -> header_fields_ok p) ->
            exists added,
              entries (load_from convs self1 next data).1
              = entries self ++ added
              /\ Forall wellformed added
              /\ ((load_from convs self1 next data).2 = Ok tt ->
                  run_appends self (under convs added)
                  = ((load_from convs self1 next data).1, Ok tt))) as Hcont.
  { intros self1 next added1 Hents1 Hw1 Hrun1 Hnext.
    destruct (IH self1 next Hnext) as (added2 & Hents2 & Hw2 & Hrun2).
    exists (added1 ++ added2). rewrite Hents2, Hents1, app_assoc.
    split; [done|]. split; [by apply Forall_app|].
    intros Hok. unfold under. rewrite fmap_app.
    rewrite (run_appends_app _ _ _ _ Hrun1). by apply Hrun2. }
  assert (forall e (self' : LogContainer pyval pyobj) (outcome : result unit),
            append convs self (LogEntryObj e) = (self', outcome) ->
            header_fields_ok e -> ends_with_boundary (message e) = true ->
            exists added,
              entries (match outcome with
                       | Ok _ => load_from convs self' None data
                       | Raise err => (self', Raise err)
                       end).1 = entries self ++ added
              /\ Forall wellformed added
              /\ ((match outcome with
                   | Ok _ => load_from convs self' None data
                   | Raise err => (self', Raise err)
                   end).2 = Ok tt ->
                  run_appends self (under convs added)
                  = ((match outcome with
                      | Ok _ => load_from convs self' None data
                      | Raise err => (self', Raise err)
                      end).1, Ok tt))) as Hstore.
  { intros e self' outcome Heq Hok Hend.
    assert (Forall wellformed [LogEntryObj e]) as Hw.
    { repeat constructor. by exists e. }
    pose proof (append_entries convs self (LogEntryObj e)) as Happ.
    rewrite Heq in Happ. cbn [fst] in Happ.
    destruct outcome as [[]|err].
    - apply (Hcont self' None [LogEntryObj e]); [done|done| |done].
      simpl. by rewrite Heq.
    - exists [LogEntryObj e]. by repeat split. }
  destruct (_entry_re_match line) as [groups|] eqn:Hm.
  - destruct (strptime (group_date groups)) as [d|err] eqn:Hd; simpl.
    2: { exists []. by rewrite app_nil_r. }
    assert (header_fields_ok
              {| date := d;
                 loglevel := group_loglevel groups;
                 sessionid := group_sessionid groups;
                 businessid := group_businessid groups;
                 requestid := group_requestid groups;
                 message := group_message groups |}) as Hok.
    { destruct (entry_re_match_groups _ _ Hm) as ([? ?] & ? & ? & ? & ?).
      apply strptime_valid in Hd. by repeat split. }
    destruct (ends_with_boundary (group_message groups)) eqn:Hend.
    + destruct (append convs self (LogEntryObj _)) as [self' outcome] eqn:Heq.
      destruct outcome as [[]|err]; simpl.
      * by apply (Hstore _ self' (Ok tt) Heq).
      * by apply (Hstore _ self' (Raise err) Heq).
    + apply (Hcont self _ []); [by rewrite app_nil_r|constructor|done|].
      intros p [= <-]. destruct Hok as (? & [? ?] & ? & ? & ? & body & Hbody).
      cbn [message] in Hbody. repeat split; try done. cbn [message].
      rewrite Hbody. by exists (body +:+ String newline EmptyString).
  - destruct pending as [p|].
    2: { apply (Hcont self _ []);
           [by rewrite app_nil_r|constructor|done|done]. }
    pose proof (Hp p eq_refl) as (? & [? ?] & ? & ? & ? & body & Hbody).
    destruct (str_empty (rstrip line)
              || negb (ends_with_boundary (rstrip line))) eqn:Hopen.
    + apply (Hcont self _ []); [by rewrite app_nil_r|constructor|done|].
      intros p' [= <-]. repeat split; try done. cbn [message].
      rewrite Hbody. by exists (body +:+ line).
    + apply orb_false_iff in Hopen as [_ Hend%negb_false_iff].
      assert (header_fields_ok
                {| date := date p;
                   loglevel := loglevel p;
                   sessionid := sessionid p;
                   businessid := businessid p;
                   requestid := requestid p;
                   message := message p +:+ rstrip line |}) as Hok.
      { repeat split; try done. cbn [message]. rewrite Hbody.
        by exists (body +:+ rstrip line). }
      destruct (append convs self (LogEntryObj _)) as [self' outcome] eqn:Heq.
      destruct outcome as [[]|err]; simpl.
      * apply (Hstore _ self' (Ok tt) Heq Hok).
        by apply ends_with_boundary_app.
      * apply (Hstore _ self' (Raise err) Heq Hok).
        by apply ends_with_boundary_app.
Qed.

(** X7. Every record [load] stores is well formed: its date is a valid
    calendar date and time, its severity a non-empty word, its three ids
    the tags [SID:], [BID:] (digits) and [RID:] (lower-case hexadecimal
    digits) with a non-empty body, and its message starts and ends with
    the boundary marker. *)
Theorem load_stores_wellformed_records
    (convs : gmap string (pyval -> result pyval))
    (self : LogContainer pyval pyobj) (data : list string) :
  exists added,
    entries (load convs self data).1 = entries self ++ added
    /\ Forall wellformed added.
Proof.
  destruct (load_from_trace convs data self None) as (added & ? & ? & _);
    [done|].
  by exists added.
Qed.

(** * Queries on a loaded [CustomLog] *)

Section RangeQueries.
Context {V : Type} `{PyOrder V} {E : Type} `{Attributes E V}.

(** Resolving the pairs in another order gives the records in that
    order. *)
Lemma referenced_perm (ents : list E) (p1 p2 : list (V * nat)) :
  p1 ≡ₚ p2 ->
  forall r2, referenced ents p2 = Ok r2 ->
  exists r1, referenced ents p1 = Ok r1 /\ r1 ≡ₚ r2.
Proof.
  induction 1 as [|[k i] l l' _ IH|[k i] [k' i'] l|l l' l'' _ IH1 _ IH2];
    intros r2 Hr2; simpl in *.
  - injection Hr2 as <-. by exists [].
  - destruct (ents !! i) as [e|]; [|done].
    destruct (referenced ents l') as [r'|]; [|done].
    injection Hr2 as <-. destruct (IH r' eq_refl) as (r & -> & Hperm).
    exists (e :: r). split; [done|]. by constructor.
  - destruct (ents !! i) as [e|]; [|by destruct (ents !! i')].
    destruct (ents !! i') as [e'|]; [|done].
    destruct (referenced ents l) as [r|]; [|done].
    injection Hr2 as <-. exists (e' :: e :: r). split; [done|]. constructor.
  - destruct (IH2 r2 Hr2) as (r' & Hr' & Hperm').
    destruct (IH1 r' Hr') as (r & Hr & Hperm).
    exists r. split; [done|]. by etrans.
Qed.

Lemma referenced_Forall2 (Q : V * nat -> E -> Prop) (ents : list E)
    (pairs : list (V * nat)) :
  Forall (fun p => forall e, ents !! p.2 = Some e -> Q p e) pairs ->
  forall res, referenced ents pairs = Ok res -> Forall2 Q pairs res.
Proof.
  induction 1 as [|[k i] pairs Hp _ IH]; intros res Hres; simpl in *.
  { injection Hres as <-. constructor. }
  destruct (ents !! i) as [e|]; [|done].
  destruct (referenced ents pairs) as [r|]; [|done].
  injection Hres as <-. constructor; [by apply Hp|by apply IH].
Qed.

Lemma StronglySorted_Forall2 {A B} (Q : A -> B -> Prop) (R : relation A)
    (R' : relation B) (l : list A) (l' : list B) :
  Forall2 Q l l' -> StronglySorted R l ->
  (forall x y x' y', Q x x' -> Q y y' -> R x y -> R' x' y') ->
  StronglySorted R' l'.
Proof.
  intros Hall Hs Himpl. induction Hall as [|x x' l l' Hx Hall IH].
  { constructor. }
  apply StronglySorted_inv in Hs as [Hs Hfirst].
  constructor; [by apply IH|].
  apply Forall_forall. intros y' Hy'.
  apply list_elem_of_lookup_1 in Hy' as [i Hi].
  destruct (Forall2_lookup_r _ _ _ _ _ Hall Hi) as (y & Hy & HQ).
  rewrite Forall_forall in Hfirst.
  apply (Himpl x y); [done|done|].
  apply Hfirst. by eapply list_elem_of_lookup_2.
Qed.

Lemma filter_ext_Forall {A} (P Q : A -> Prop) `{forall x, Decision (P x)}
    `{forall x, Decision (Q x)} (l : list A) :
  Forall (fun x => P x <-> Q x) l -> filter P l = filter Q l.
Proof.
  induction 1 as [|x l Hx _ IH]; [done|].
  rewrite !filter_cons, IH. repeat case_decide; tauto.
Qed.

(** A range query on an instance filled under [convs]: the records
    whose key lies between the converted bounds, ordered by key. *)
Lemma range_query_sorted (fields : list string) convs (ents : list E)
    (self : LogContainer V E) (field : string) (value value_to lo hi : V) :
  run_appends (LogContainer_init fields) ((fun e => (convs, e)) <$> ents)
    = (self, Ok tt) ->
  occurrences field fields = 1 ->
  _marshall_value convs field value = Ok lo ->
  py_truth value_to = true ->
  _marshall_value convs field value_to = Ok hi ->
  exists res,
    find_by convs self field value value_to = Ok res
    /\ res ≡ₚ with_key convs field
                (fun k => negb (py_lt k lo) && negb (py_lt hi k)) ents
    /\ StronglySorted
         (fun e e' => exists k k',
            sortable_value convs e field = Ok k
            /\ sortable_value convs e' field = Ok k' /\ py_le k k') res.
Proof.
  intros Hrun Hocc Hlo Htruth Hhi.
  assert (field ∈ fields) as Hfield by (apply occurrences_pos; lia).
  destruct (find_by_sorted fields convs ents self field lo hi Hrun Hfield)
    as (bucket & Hlook & Hents & Hsorted & Hperm & Hslice).
  rewrite Hocc in Hperm.
  set (p := fun k : V => negb (py_lt k lo) && negb (py_lt hi k)).
  assert (forall y : V * nat,
            py_le lo y.1 /\ py_le y.1 hi <-> p y.1 = true) as Hiff.
  { intros y. unfold p, py_le.
    rewrite andb_true_iff, !negb_true_iff. tauto. }
  pose proof (referenced_index_pairs convs field p ents []) as Hall.
  simpl in Hall.
  assert (filter (fun y : V * nat => py_le lo y.1 /\ py_le y.1 hi) bucket
          ≡ₚ filter (fun y : V * nat => p y.1 = true)
               (index_pairs 1 field 0 ((fun e => (convs, e)) <$> ents)))
    as Hpairs.
  { rewrite Hperm. by rewrite (list_filter_iff _ _ _ Hiff). }
  destruct (referenced_perm ents _ _ Hpairs _ Hall)
    as (res & Hres & Hres_perm).
  exists res. split; [|split; [done|]].
  - unfold find_by. rewrite Hlo. simpl. rewrite Htruth, Hhi. simpl.
    rewrite Hlook. simpl. by rewrite Hslice, Hents.
  - apply (StronglySorted_Forall2
             (fun (y : V * nat) e => sortable_value convs e field = Ok y.1)
             pair_le _
             (filter (fun y : V * nat => py_le lo y.1 /\ py_le y.1 hi) bucket)).
    + apply (referenced_Forall2 _ ents); [|done].
      apply Forall_forall. intros [k i] [_ Hin]%list_elem_of_filter.
      rewrite Hperm in Hin.
      apply index_pairs_elem in Hin as (_ & e & He & Hk).
      rewrite Nat.sub_0_r in He. simpl. intros e' He'. congruence.
    + by apply StronglySorted_filter.
    + intros x y e e' Hx Hy Hxy. exists x.1, y.1. repeat split; [done..|].
      apply py_le_cases. destruct Hxy as [?|[? _]]; [by left|by right].
Qed.
End RangeQueries.

(** What a successful [load] into a new [CustomLog] leaves: the state
    reached by appending the stored records, all of them well formed. *)
Lemma load_fresh_trace (convs : gmap string (pyval -> result pyval))
    (data : list string) (self : LogContainer pyval pyobj) :
  load convs (LogContainer_init CustomLog_searchable_fields) data
    = (self, Ok tt) ->
  run_appends (LogContainer_init CustomLog_searchable_fields)
    ((fun e => (convs, e)) <$> entries self) = (self, Ok tt)
  /\ Forall wellformed (entries self).
Proof.
  intros Hload.
  destruct (load_from_trace convs data
              (LogContainer_init CustomLog_searchable_fields) None)
    as (added & Hents & Hw & Hrun); [done|].
  unfold load in Hload. rewrite Hload in Hents, Hrun. simpl in Hents, Hrun.
  rewrite Hents. split; [by apply Hrun|done].
Qed.

(** The sort keys of a [LogEntry] in a [CustomLog]. *)
Lemma CustomLog_sort_keys (convs : gmap string (pyval -> result pyval))
    (e : LogEntry) :
  sortable_value (CustomLog_install convs) (LogEntryObj e) "date"
    = Ok (VInt (total_seconds_since_epoch (date e)))
  /\ sortable_value (CustomLog_install convs) (LogEntryObj e) "loglevel"
     = _loglevel_converter (VStr (loglevel e))
  /\ sortable_value (CustomLog_install convs) (LogEntryObj e) "sessionid"
     = Ok (VStr (str_drop 4 (sessionid e)))
  /\ sortable_value (CustomLog_install convs) (LogEntryObj e) "businessid"
     = Ok (VStr (str_drop 4 (businessid e))).
Proof.
  destruct (CustomLog_install_lookup convs) as (Hd & Hl & Hs & Hb).
  unfold sortable_value, _marshall_value.
  by rewrite Hd, Hl, Hs, Hb.
Qed.

Lemma pyval_eq_VStr (a b : string) :
  pyval_eq (VStr a) (VStr b) = String.eqb a b.
Proof.
  destruct (String.eqb_spec a b) as [->|Hne].
  - exact (py_eq_refl (V:=pyval) (VStr b)).
  - assert (VStr a <> VStr b) as Hne' by congruence.
    exact (proj2 (py_eq_false (V:=pyval) (VStr a) (VStr b)) Hne').
Qed.

(** [_loglevel_converter] sends different severities to different
    ranks. *)
Lemma loglevel_key_matches (level other : string) (k : pyval) :
  _loglevel_converter (VStr level) = Ok k ->
  match _loglevel_converter (VStr other) with
  | Ok key => pyval_eq k key
  | Raise _ => false
  end = String.eqb other level.
Proof.
  unfold _loglevel_converter. rewrite !pyval_eq_VStr.
  destruct (String.eqb_spec "ERROR" level) as [<-|?];
    [|destruct (String.eqb_spec "WARN" level) as [<-|?];
      [|destruct (String.eqb_spec "DEBUG" level) as [<-|?]; [|done]]];
    intros [= <-];
    (destruct (String.eqb_spec "ERROR" other) as [<-|?];
     [|destruct (String.eqb_spec "WARN" other) as [<-|?];
       [|destruct (String.eqb_spec "DEBUG" other) as [<-|?]]]);
    try done; symmetry; by apply String.eqb_neq.
Qed.

(** X8. After a [load] into a new [CustomLog] that returned,
    [find_entries_with_log_level] with a severity the converter knows
    returns exactly the loaded records of that severity, in the order of
    the log. *)
Theorem find_entries_with_log_level_after_load
    (convs : gmap string (pyval -> result pyval)) (data : list string)
    (self : LogContainer pyval pyobj) (level : string) :
  load (CustomLog_init convs).1 (CustomLog_init convs).2 data
    = (self, Ok tt) ->
  recognised level = true ->
  find_entries_with_log_level (CustomLog_init convs).1 self (VStr level)
  = Ok (filter (fun o => has_loglevel level o = true) (entries self)).
Proof.
  intros Hload Hlevel. cbn [CustomLog_init fst snd] in *.
  destruct (load_fresh_trace _ _ _ Hload) as [Hrun Hw].
  destruct (recognised_converts level Hlevel) as [k Hk].
  destruct (CustomLog_install_lookup convs) as (_ & Hl & _).
  unfold find_entries_with_log_level.
  rewrite (point_query_sorted CustomLog_searchable_fields _ (entries self)
             self "loglevel" (VStr level) py_None k Hrun);
    [|done|by unfold _marshall_value; rewrite Hl|done].
  f_equal. unfold with_key. apply filter_ext_Forall.
  eapply Forall_impl; [exact Hw|]. intros o (e & -> & _).
  unfold key_satisfies.
  destruct (CustomLog_sort_keys convs e) as (_ & -> & _).
  cbn [py_eq pyval_PyValue].
  by rewrite (loglevel_key_matches level (loglevel e) k Hk).
Qed.

Lemma find_entries_with_log_level_after_load_witness :
  find_entries_with_log_level (CustomLog_init no_converters).1
    (load (CustomLog_init no_converters).1 (CustomLog_init no_converters).2
       ["2012-01-01 00:00:01 DEBUG SID:1 BID:2 RID:3 'A'";
        "2012-01-01 00:00:02 ERROR SID:1 BID:2 RID:4 'B'"]).1
    (VStr "ERROR")
  = Ok (filter (fun o => has_loglevel "ERROR" o = true)
          (entries
             (load (CustomLog_init no_converters).1
                (CustomLog_init no_converters).2
                ["2012-01-01 00:00:01 DEBUG SID:1 BID:2 RID:3 'A'";
                 "2012-01-01 00:00:02 ERROR SID:1 BID:2 RID:4 'B'"]).1)).
Proof.
  apply (find_entries_with_log_level_after_load no_converters
           ["2012-01-01 00:00:01 DEBUG SID:1 BID:2 RID:3 'A'";
            "2012-01-01 00:00:02 ERROR SID:1 BID:2 RID:4 'B'"]).
  - vm_compute. reflexivity.
  - reflexivity.
Defined.

(** X9. After a [load] into a new [CustomLog] that returned,
    [find_entries_with_session_id] and [find_entries_with_business_id]
    return exactly the loaded records whose id agrees with the query
    from the fifth character on, in the order of the log: the first
    four characters of the query are not compared. *)
Theorem find_entries_with_id_after_load
    (convs : gmap string (pyval -> result pyval)) (data : list string)
    (self : LogContainer pyval pyobj) (query : string) :
  load (CustomLog_init convs).1 (CustomLog_init convs).2 data
    = (self, Ok tt) ->
  find_entries_with_session_id (CustomLog_init convs).1 self (VStr query)
  = Ok (filter (fun o => xid_matches "sessionid" query o = true)
          (entries self))
  /\ find_entries_with_business_id (CustomLog_init convs).1 self (VStr query)
     = Ok (filter (fun o => xid_matches "businessid" query o = true)
             (entries self)).
Proof.
  intros Hload. cbn [CustomLog_init fst snd] in *.
  destruct (load_fresh_trace _ _ _ Hload) as [Hrun Hw].
  destruct (CustomLog_install_lookup convs) as (_ & _ & Hs & Hb).
  unfold find_entries_with_session_id, find_entries_with_business_id.
  split.
  - rewrite (point_query_sorted CustomLog_searchable_fields _ (entries self)
               self "sessionid" (VStr query) py_None
               (VStr (str_drop 4 query)) Hrun);
      [|done|by unfold _marshall_value; rewrite Hs|done].
    f_equal. unfold with_key. apply filter_ext_Forall.
    eapply Forall_impl; [exact Hw|]. intros o (e & -> & _).
    unfold key_satisfies.
    destruct (CustomLog_sort_keys convs e) as (_ & _ & -> & _).
    unfold xid_matches. cbn [py_eq pyval_PyValue]. simpl.
    by rewrite pyval_eq_VStr, String.eqb_sym.
  - rewrite (point_query_sorted CustomLog_searchable_fields _ (entries self)
               self "businessid" (VStr query) py_None
               (VStr (str_drop 4 query)) Hrun);
      [|done|by unfold _marshall_value; rewrite Hb|done].
    f_equal. unfold with_key. apply filter_ext_Forall.
    eapply Forall_impl; [exact Hw|]. intros o (e & -> & _).
    unfold key_satisfies.
    destruct (CustomLog_sort_keys convs e) as (_ & _ & _ & ->).
    unfold xid_matches. cbn [py_eq pyval_PyValue]. simpl.
    by rewrite pyval_eq_VStr, String.eqb_sym.
Qed.

Lemma find_entries_with_id_after_load_witness :
  find_entries_with_session_id (CustomLog_init no_converters).1
    (load (CustomLog_init no_converters).1 (CustomLog_init no_converters).2
       ["2012-01-01 00:00:01 DEBUG SID:1 BID:2 RID:3 'A'";
        "2012-01-01 00:00:02 ERROR SID:7 BID:2 RID:4 'B'"]).1
    (VStr "xxxx7")
  = Ok (filter (fun o => xid_matches "sessionid" "xxxx7" o = true)
          (entries
             (load (CustomLog_init no_converters).1
                (CustomLog_init no_converters).2
                ["2012-01-01 00:00:01 DEBUG SID:1 BID:2 RID:3 'A'";
                 "2012-01-01 00:00:02 ERROR SID:7 BID:2 RID:4 'B'"]).1))
  /\ find_entries_with_business_id (CustomLog_init no_converters).1
       (load (CustomLog_init no_converters).1 (CustomLog_init no_converters).2
          ["2012-01-01 00:00:01 DEBUG SID:1 BID:2 RID:3 'A'";
           "2012-01-01 00:00:02 ERROR SID:7 BID:2 RID:4 'B'"]).1
       (VStr "xxxx7")
     = Ok (filter (fun o => xid_matches "businessid" "xxxx7" o = true)
             (entries
                (load (CustomLog_init no_converters).1
                   (CustomLog_init no_converters).2
                   ["2012-01-01 00:00:01 DEBUG SID:1 BID:2 RID:3 'A'";
                    "2012-01-01 00:00:02 ERROR SID:7 BID:2 RID:4 'B'"]).1)).
Proof.
  apply (find_entries_with_id_after_load no_converters
           ["2012-01-01 00:00:01 DEBUG SID:1 BID:2 RID:3 'A'";
            "2012-01-01 00:00:02 ERROR SID:7 BID:2 RID:4 'B'"]).
  vm_compute. reflexivity.
Defined.
